(** * Music upload backend: a shallow embedding of [main.py] and [schemas.py]

    The HTTP handlers of [main.py] are modelled as functions over an explicit
    world (the upload directory, the [track] collection, a log of the I/O the
    handler performed).  Everything the handlers cannot decide themselves
    (random bytes, clock readings, I/O failures) is an input of the model. *)

From Stdlib Require Import ZArith Lia List Ascii String Bool Sorting.Sorted.
From stdpp Require Import gmap strings list fin_maps.

Local Open Scope string_scope.
Local Open Scope list_scope.
Local Open Scope Z_scope.

(** ** Python string primitives used by the handlers

    A [str] is kept as the bytes of its UTF-8 text.  Searching for and
    cutting at ASCII characters is the same on the bytes as on the
    characters; where the code counts characters ([s[:50]]) the model counts
    them too, a character starting at every byte that is not a continuation
    byte. *)

Module PyStr.

(** [s[:n]] for [0 <= n]. *)
Fixpoint take (n : nat) (s : string) : string :=
  match n, s with
  | S k, String a s' => String a (take k s')
  | _, _ => EmptyString
  end.

(** [s[n:]] for [0 <= n]. *)
Fixpoint drop (n : nat) (s : string) : string :=
  match n, s with
  | S k, String _ s' => drop k s'
  | _, _ => s
  end.

(** [s.rfind(c)], scanning left to right and remembering the last hit;
    [i] is the index of the head of [s], [found] the answer so far. *)
Fixpoint rfind_from (c : ascii) (s : string) (i found : Z) : Z :=
  match s with
  | EmptyString => found
  | String a s' => rfind_from c s' (i + 1) (if Ascii.eqb a c then i else found)
  end.

Definition rfind (s : string) (c : ascii) : Z := rfind_from c s 0 (-1).

(** [s.startswith(p)]. *)
Fixpoint startswith (s p : string) : bool :=
  match p, s with
  | EmptyString, _ => true
  | String b p', String a s' => Ascii.eqb a b && startswith s' p'
  | String _ _, EmptyString => false
  end.

(** Truthiness of a [str]: only the empty string is falsy. *)
Definition truthy (s : string) : bool :=
  match s with EmptyString => false | String _ _ => true end.

(** [c in s]. *)
Fixpoint contains (c : ascii) (s : string) : bool :=
  match s with
  | EmptyString => false
  | String a s' => Ascii.eqb a c || contains c s'
  end.

(** UTF-8 continuation bytes, [10xxxxxx]: the bytes of a character after
    its first. *)
Definition is_continuation (a : ascii) : bool :=
  let n := Z.of_nat (nat_of_ascii a) in (128 <=? n) && (n <? 192).

(** [len(s)]: the number of characters. *)
Fixpoint char_count (s : string) : nat :=
  match s with
  | EmptyString => O
  | String a s' => if is_continuation a then char_count s' else S (char_count s')
  end.

(** [s[:n]] on characters: the bytes up to where character [n] starts. *)
Fixpoint take_chars (n : nat) (s : string) : string :=
  match s with
  | EmptyString => EmptyString
  | String a s' =>
      if is_continuation a then String a (take_chars n s')
      else match n with
           | O => EmptyString
           | S k => String a (take_chars k s')
           end
  end.

(** [s.split(c)]: the segments of [s] between occurrences of [c]. *)
Fixpoint split (c : ascii) (s : string) : list string :=
  match s with
  | EmptyString => [EmptyString]
  | String a s' =>
      if Ascii.eqb a c then EmptyString :: split c s'
      else match split c s' with
           | seg :: rest => String a seg :: rest
           | [] => [String a EmptyString]
           end
  end.

End PyStr.

(** ** [os.path.splitext] (the [genericpath._splitext] helper of CPython)

    [sepIndex] is the last path separator, [dotIndex] the last dot; the
    extension starts at [dotIndex] only when that dot comes after the last
    separator and is preceded, inside the last path component, by at least
    one character that is not a dot. *)

(** The [while filenameIndex < dotIndex] loop: [true] when it returns the
    split from inside the loop, [false] when it runs to the end.  [steps] is
    [dotIndex - filenameIndex]. *)
Fixpoint splitext_scan (p : string) (extsep : ascii) (filenameIndex : nat) (steps : nat) : bool :=
  match steps with
  | O => false
  | S k =>
      match String.get filenameIndex p with
      | Some a =>
          if Ascii.eqb a extsep then splitext_scan p extsep (S filenameIndex) k
          else true
      | None => true
      end
  end.

Definition genericpath_splitext (p : string) (sep : ascii) (altsep : option ascii)
    (extsep : ascii) : string * string :=
  let sepIndex := PyStr.rfind p sep in
  let sepIndex :=
    match altsep with
    | Some a => Z.max sepIndex (PyStr.rfind p a)
    | None => sepIndex
    end in
  let dotIndex := PyStr.rfind p extsep in
  if (sepIndex <? dotIndex)
     && splitext_scan p extsep (Z.to_nat (sepIndex + 1)) (Z.to_nat (dotIndex - (sepIndex + 1)))
  then (PyStr.take (Z.to_nat dotIndex) p, PyStr.drop (Z.to_nat dotIndex) p)
  else (p, EmptyString).

(** [posixpath.splitext]: [sep = '/'], no [altsep], [extsep = '.']. *)
Definition os_path_splitext (p : string) : string * string :=
  genericpath_splitext p "/"%char None "."%char.

(** ** [uuid.uuid4().hex] *)

Definition hex_digit (d : Z) : ascii :=
  nth (Z.to_nat d)
    ["0"; "1"; "2"; "3"; "4"; "5"; "6"; "7"; "8"; "9"; "a"; "b"; "c"; "d"; "e"; "f"]%char
    "0"%char.

(** ['%0<width>x' % n] for [0 <= n < 16 ^ width]: one digit per nibble, most
    significant first. *)
Fixpoint hex_fixed (width : nat) (n : Z) : string :=
  match width with
  | O => EmptyString
  | S k => String (hex_digit (Z.land (Z.shiftr n (4 * Z.of_nat k)) 15)) (hex_fixed k n)
  end.

(** [UUID(bytes=os.urandom(16), version=4).int]; [rnd] is the integer read
    from the sixteen random bytes, the variant and version bits are forced. *)
Definition uuid4_int (rnd : Z) : Z :=
  let i := rnd mod 2 ^ 128 in
  let i := Z.land i (Z.lnot (Z.shiftl 0xc000 48)) in
  let i := Z.lor i (Z.shiftl 0x8000 48) in
  let i := Z.land i (Z.lnot (Z.shiftl 0xf000 64)) in
  Z.lor i (Z.shiftl 4 76).

Definition uuid4_hex (rnd : Z) : string := hex_fixed 32 (uuid4_int rnd).

(** The six bits [uuid4] does not take from the random source (variant:
    bits 62-63, version: bits 76-79) and the values it forces there
    (variant [10], version [0100]). *)
Definition uuid4_forced_mask : Z := Z.lor (Z.shiftl 0xf000 64) (Z.shiftl 0xc000 48).
Definition uuid4_forced_bits : Z := Z.lor (Z.shiftl 4 76) (Z.shiftl 0x8000 48).

(** Lines 98-99 of [upload_track]:
    [ext = os.path.splitext(file.filename)[1]; unique_name = f"{uuid4().hex}{ext}"]. *)
Definition unique_name (rnd : Z) (original_filename : string) : string :=
  let ext := snd (os_path_splitext original_filename) in
  uuid4_hex rnd +:+ ext.

(** ** [build_media_url]

    [base] is [os.getenv("PUBLIC_BACKEND_URL")]: [None] when the variable is
    unset.  [if base:] is also false for a variable set to the empty string. *)
Definition build_media_url (PUBLIC_BACKEND_URL : option string) (filename : string) : string :=
  match PUBLIC_BACKEND_URL with
  | Some base =>
      if PyStr.truthy base then base +:+ "/media/" +:+ filename
      else "/media/" +:+ filename
  | None => "/media/" +:+ filename
  end.


(** ** Exceptions and the handler monad *)

(** What a handler can raise: FastAPI's [HTTPException(status_code, detail)],
    or any other exception, of which only [str(e)] is ever used. *)
Inductive Exn : Type :=
| HTTPException (status_code : Z) (detail : string)
| Exception (msg : string).

Inductive Except (A : Type) : Type :=
| Raise (e : Exn)
| Return (a : A).
Arguments Raise {A} e.
Arguments Return {A} a.

(** [str(e)] for the exceptions caught by [upload_track]: those raised by
    the I/O, the validation and the insert, never an [HTTPException] (for
    which only the detail is kept here). *)
Definition str_exn (e : Exn) : string :=
  match e with
  | Exception msg => msg
  | HTTPException _ detail => detail
  end.

(** ** Data model ([schemas.Track] and the stored documents) *)

Record Track : Type := mkTrack {
  title : string;
  artist : option string;
  album : option string;
  genre : option string;
  cover_url : option string;
  filename : string;
  original_filename : string;
  content_type : string;
  file_size : Z
}.

(** A [bson.ObjectId] is its 96-bit value; [str(oid)] prints 24 hex digits. *)
Definition ObjectId : Type := Z.

Definition str_ObjectId (oid : ObjectId) : string := hex_fixed 24 oid.

Definition hex_value (a : ascii) : option Z :=
  let n := Z.of_nat (nat_of_ascii a) in
  if (48 <=? n) && (n <=? 57) then Some (n - 48)
  else if (97 <=? n) && (n <=? 102) then Some (n - 87)
  else if (65 <=? n) && (n <=? 70) then Some (n - 55)
  else None.

(** [int(s, 16)] digit by digit, [None] at the first character that is not
    a hex digit; [acc] is the value read so far. *)
Fixpoint hex_parse (s : string) (acc : Z) : option Z :=
  match s with
  | EmptyString => Some acc
  | String a s' =>
      match hex_value a with
      | Some d => hex_parse s' (16 * acc + d)
      | None => None
      end
  end.

(** ASCII whitespace, as [bytes.fromhex] skips it. *)
Definition is_space (a : ascii) : bool :=
  let n := Z.of_nat (nat_of_ascii a) in ((9 <=? n) && (n <=? 13)) || (n =? 32).

(** [bytes.fromhex(s)]: pairs of hex digits, with any ASCII whitespace
    before a pair (or at the end) skipped; [None] where it raises
    [ValueError]: a character that is neither, or a digit without its
    second. *)
Fixpoint bytes_fromhex (s : string) : option (list Z) :=
  match s with
  | EmptyString => Some []
  | String a s1 =>
      if is_space a then bytes_fromhex s1
      else
        match hex_value a, s1 with
        | Some top, String b s2 =>
            match hex_value b with
            | Some bot => cons (16 * top + bot) <$> bytes_fromhex s2
            | None => None
            end
        | _, _ => None
        end
  end.

(** [int.from_bytes(bs, "big")], continuing from [acc]. *)
Definition int_from_bytes (bs : list Z) (acc : Z) : Z :=
  fold_left (fun v b => 256 * v + b) bs acc.

(** [ObjectId(oid).binary] for a [str] argument: bson checks
    [len(oid) == 24] and takes [bytes.fromhex(oid)]; [None] where it raises
    [InvalidId].  A string with whitespace between its pairs is accepted
    and gives fewer than 12 bytes. *)
Definition ObjectId_binary (oid : string) : option (list Z) :=
  if Nat.eqb (String.length oid) 24 then bytes_fromhex oid else None.

(** The id a string denotes when its binary has the 12 bytes of a stored
    id; a shorter binary is the id of no stored document. *)
Definition ObjectId_of_str (oid : string) : option ObjectId :=
  match ObjectId_binary oid with
  | Some binary =>
      if Nat.eqb (length binary) 12 then Some (int_from_bytes binary 0) else None
  | None => None
  end.

(** A document of the [track] collection. *)
Record Doc : Type := mkDoc {
  _id : ObjectId;
  created_at : Z;
  doc_track : Track
}.

(** ** The world the handlers run in *)

(** I/O performed by a handler, oldest first. *)
Inductive Effect : Type :=
| FileRead (nbytes : nat)
| BlobWrite (name : string) (nbytes : nat)
| BlobRemove (name : string)
| DocInsert (oid : ObjectId).

(** [database.db] and the server behind it.  The documents are those of
    the [track] collection, in natural order. *)
Inductive DbState : Type :=
| NotConfigured                                   (* [db is None] *)
| Unreachable (error : string) (docs : list Doc)  (* a handle whose calls raise [error] *)
| Connected (docs : list Doc).                    (* a handle that answers *)

Record World : Type := mkWorld {
  uploads : gmap string (list Byte.byte);  (* regular files of UPLOAD_DIR, by name *)
  store : DbState;
  effects : list Effect
}.

(** The collection, when there is a handle and it answers. *)
Definition db (w : World) : option (list Doc) :=
  match store w with
  | Connected docs => Some docs
  | NotConfigured | Unreachable _ _ => None
  end.

Definition set_uploads (u : gmap string (list Byte.byte)) (w : World) : World :=
  mkWorld u (store w) (effects w).
Definition set_docs (docs : list Doc) (w : World) : World :=
  mkWorld (uploads w) (Connected docs) (effects w).
Definition log (e : Effect) (w : World) : World :=
  mkWorld (uploads w) (store w) (effects w ++ [e]).

Definition M (A : Type) : Type := World -> Except A * World.

Definition ret {A} (a : A) : M A := fun w => (Return a, w).
Definition raise {A} (e : Exn) : M A := fun w => (Raise e, w).
Definition bind {A B} (m : M A) (k : A -> M B) : M B :=
  fun w => match m w with
           | (Return a, w') => k a w'
           | (Raise e, w') => (Raise e, w')
           end.
(** [try: m  except Exception as e: handler e]. *)
Definition try_except {A} (m : M A) (handler : Exn -> M A) : M A :=
  fun w => match m w with
           | (Return a, w') => (Return a, w')
           | (Raise e, w') => handler e w'
           end.

#[global] Instance M_ret : MRet M := @ret.
#[global] Instance M_bind : MBind M := fun A B k m => bind m k.

(** ** What the environment decides for one upload *)

Inductive WriteOutcome : Type :=
| Written
| OpenFailed (msg : string)                   (* [open(dest_path, "wb")] raised *)
| WriteFailed (msg : string) (partial : nat). (* [f.write] raised after [partial] bytes *)

Record Oracle : Type := mkOracle {
  urandom16 : Z;                       (* the integer of [os.urandom(16)] *)
  read_error : option string;          (* [await file.read()] raising *)
  write_outcome : WriteOutcome;
  insert_outcome : string + ObjectId;  (* [insert_one]: the error raised, or the id assigned *)
  remove_error : option string;        (* [os.remove] raising *)
  now_insert : Z;                      (* clock reading when the document is stamped *)
  now_response : Z                     (* clock reading when the response is built *)
}.

(** What is fixed for a run of the service: the environment variable read
    by [build_media_url], and pydantic's [HttpUrl] validation (the error
    text, or the accepted URL as the model stores it). *)
Record Config : Type := mkConfig {
  PUBLIC_BACKEND_URL : option string;
  HttpUrl : string -> string + string
}.

(** The multipart file part as FastAPI hands it over. *)
Record UploadFile : Type := mkUploadFile {
  file_filename : string;
  file_content_type : option string;
  file_size_declared : option Z;       (* [UploadFile.size], never consulted *)
  file_body : list Byte.byte
}.

(** ** Primitive effects *)

(** [contents = await file.read()]. *)
Definition file_read (o : Oracle) (file : UploadFile) : M (list Byte.byte) :=
  fun w =>
    match read_error o with
    | Some msg => (Raise (Exception msg), w)
    | None => (Return (file_body file), log (FileRead (length (file_body file))) w)
    end.

(** [with open(dest_path, "wb") as f: f.write(contents)]; [name] is the file
    name inside [UPLOAD_DIR].  Opening truncates or creates the file. *)
Definition write_file (o : Oracle) (name : string) (contents : list Byte.byte) : M unit :=
  fun w =>
    match write_outcome o with
    | Written =>
        (Return tt,
         log (BlobWrite name (length contents))
             (set_uploads (<[name := contents]> (uploads w)) w))
    | OpenFailed msg => (Raise (Exception msg), w)
    | WriteFailed msg partial =>
        (Raise (Exception msg),
         log (BlobWrite name (length (firstn partial contents)))
             (set_uploads (<[name := firstn partial contents]> (uploads w)) w))
    end.

(** [os.remove(dest_path)]. *)
Definition os_remove (o : Oracle) (name : string) : M unit :=
  fun w =>
    match remove_error o with
    | Some msg => (Raise (Exception msg), w)
    | None =>
        match uploads w !! name with
        | Some _ => (Return tt, log (BlobRemove name) (set_uploads (delete name (uploads w)) w))
        | None => (Raise (Exception "No such file or directory"), w)
        end
    end.

(** [Track(title=..., ..., file_size=size)]: pydantic validates [cover_url]
    as an [HttpUrl] when one is given and [file_size] against [ge=0]; the
    result is the validation error's text or the model. *)
Definition Track_new (cfg : Config) (title : string) (artist album genre cover_url : option string)
    (filename original_filename content_type : string) (file_size : Z) : string + Track :=
  if file_size <? 0 then inl "Input should be greater than or equal to 0"
  else
    match cover_url with
    | None =>
        inr (mkTrack title artist album genre None
                     filename original_filename content_type file_size)
    | Some u =>
        match HttpUrl cfg u with
        | inl msg => inl msg
        | inr url =>
            inr (mkTrack title artist album genre (Some url)
                         filename original_filename content_type file_size)
        end
    end.

(** A pure computation that raises [Exception(msg)] or returns. *)
Definition lift {A} (r : string + A) : M A :=
  match r with
  | inl msg => raise (Exception msg)
  | inr a => mret a
  end.

(** Modelled from the spec: [database.create_document] and [database.db] are
    imported from a module that is not among the sources.  By the spec the
    insert assigns and returns a unique identifier, stamps the record with
    its creation time, and fails with a persistence error (leaving the
    collection as it was) on connectivity or constraint failure; an
    unconfigured or unreachable store is the connectivity failure.  Only
    the [track] collection is modelled. *)
Definition create_document (o : Oracle) (collection_name : string) (data : Track) : M string :=
  fun w =>
    match store w with
    | NotConfigured => (Raise (Exception "Database not available"), w)
    | Unreachable error _ => (Raise (Exception error), w)
    | Connected docs =>
        match insert_outcome o with
        | inl msg => (Raise (Exception msg), w)
        | inr oid =>
            (Return (str_ObjectId oid),
             log (DocInsert oid)
                 (set_docs (docs ++ [mkDoc oid (now_insert o) data]) w))
        end
    end.

(** ** JSON responses *)

Inductive JValue : Type :=
| JNull
| JStr (s : string)
| JInt (n : Z)
| JIsoTime (t : Z).   (* [datetime.isoformat()] of the clock reading [t] *)

(** A response [dict], keys in insertion order. *)
Definition JObject : Type := list (string * JValue).

Definition dict_get (k : string) (d : JObject) : option JValue :=
  snd <$> List.find (fun kv => String.eqb (fst kv) k) d.

Definition dict_keys (d : JObject) : list string := map fst d.

Definition JOpt (o : option string) : JValue :=
  match o with Some s => JStr s | None => JNull end.

(** ** POST /api/tracks/upload *)

(** [file.content_type and file.content_type.startswith("audio/")]. *)
Definition is_audio (declared : option string) : bool :=
  match declared with
  | Some ct => PyStr.truthy ct && PyStr.startswith ct "audio/"
  | None => false
  end.

(** Lines 103-109: read the upload, write it under [dest], report its
    length; any failure becomes a 500. *)
Definition save_file (o : Oracle) (file : UploadFile) (dest : string) : M Z :=
  try_except
    (contents ← file_read o file;
     write_file o dest contents;;
     mret (Z.of_nat (length contents)))
    (fun e => raise (HTTPException 500 ("Failed to save file: " +:+ str_exn e))).

(** Lines 113-124, the body of the second [try]: build the [Track], insert it. *)
Definition create_record (cfg : Config) (o : Oracle) (file : UploadFile) (ct dest : string)
    (size : Z) (form_title : string)
    (form_artist form_album form_genre form_cover_url : option string) : M (Track * string) :=
  track ← lift (Track_new cfg form_title form_artist form_album form_genre
                          form_cover_url dest (file_filename file) ct size);
  inserted_id ← create_document o "track" track;
  mret (track, inserted_id).

(** Lines 125-131, its [except] branch: remove the saved file, ignoring a
    failure of the removal, then raise the 500. *)
Definition rollback {A} (o : Oracle) (dest : string) (e : Exn) : M A :=
  try_except (os_remove o dest) (fun _ => mret tt);;
  raise (HTTPException 500 ("Database error: " +:+ str_exn e)).

(** Lines 133-146: the response. *)
Definition upload_response (cfg : Config) (o : Oracle) (track : Track) (inserted_id : string)
    : JObject :=
  [ ("_id", JStr inserted_id);
    ("title", JStr (title track));
    ("artist", JOpt (artist track));
    ("album", JOpt (album track));
    ("genre", JOpt (genre track));
    ("cover_url", JOpt (cover_url track));
    ("filename", JStr (filename track));
    ("original_filename", JStr (original_filename track));
    ("content_type", JStr (content_type track));
    ("file_size", JInt (file_size track));
    ("media_url", JStr (build_media_url (PUBLIC_BACKEND_URL cfg) (filename track)));
    ("created_at", JIsoTime (now_response o)) ].

Definition upload_track (cfg : Config) (o : Oracle) (file : UploadFile)
    (form_title : string) (form_artist form_album form_genre form_cover_url : option string)
    : M JObject :=
  match file_content_type file with
  | Some ct =>
      if negb (is_audio (Some ct))
      then raise (HTTPException 400 "Only audio files are allowed")
      else
        let dest := unique_name (urandom16 o) (file_filename file) in
        size ← save_file o file dest;
        r ← try_except
              (create_record cfg o file ct dest size form_title
                             form_artist form_album form_genre form_cover_url)
              (rollback o dest);
        mret (upload_response cfg o (fst r) (snd r))
  | None => raise (HTTPException 400 "Only audio files are allowed")
  end.

(** ** The read endpoints *)

(** [cursor.sort("created_at", -1)]: descending by [created_at].  The
    database leaves the order of documents with equal keys unspecified; this
    insertion sort keeps them in natural order. *)
Fixpoint insert_desc (d : Doc) (l : list Doc) : list Doc :=
  match l with
  | [] => [d]
  | y :: l' =>
      if created_at y <=? created_at d then d :: l
      else y :: insert_desc d l'
  end.

Definition sort_desc (docs : list Doc) : list Doc :=
  fold_right insert_desc [] docs.

(** [cursor.limit(n)] of pymongo: [0] means no limit, a negative [n] limits
    to [|n|] documents. *)
Definition cursor_limit (n : Z) (cursor : list Doc) : list Doc :=
  if n =? 0 then cursor else firstn (Z.abs_nat n) cursor.

(** A document as the read endpoints return it: [_id] replaced by its
    string, [media_url] added. *)
Record TrackItem : Type := mkTrackItem {
  item_id : string;
  item_doc : Doc;
  media_url : string
}.

Definition to_item (cfg : Config) (doc : Doc) : TrackItem :=
  mkTrackItem (str_ObjectId (_id doc)) doc
              (build_media_url (PUBLIC_BACKEND_URL cfg) (filename (doc_track doc))).

(** GET /api/tracks.  [if limit:] is false both for an absent limit and
    for [limit=0].  Nothing catches what iterating the cursor raises. *)
Definition list_tracks (cfg : Config) (limit : option Z) : M (list TrackItem) :=
  fun w =>
    match store w with
    | NotConfigured => (Raise (HTTPException 500 "Database not available"), w)
    | Unreachable error _ => (Raise (Exception error), w)
    | Connected docs =>
        let cursor := sort_desc docs in
        let cursor :=
          match limit with
          | Some n => if n =? 0 then cursor else cursor_limit n cursor
          | None => cursor
          end in
        (Return (map (to_item cfg) cursor), w)
    end.

(** Whether a stored id, which has 12 bytes, is the parsed [binary]. *)
Definition same_id (stored : ObjectId) (binary : list Z) : bool :=
  Nat.eqb (length binary) 12 && (stored =? int_from_bytes binary 0).

(** GET /api/tracks/{track_id}: the availability guard, then
    [ObjectId(track_id)] inside its [try], then the unguarded
    [find_one({"_id": oid})]. *)
Definition get_track (cfg : Config) (track_id : string) : M TrackItem :=
  fun w =>
    match store w with
    | NotConfigured => (Raise (HTTPException 500 "Database not available"), w)
    | handle =>
        match ObjectId_binary track_id with
        | None => (Raise (HTTPException 400 "Invalid track id"), w)
        | Some binary =>
            match handle with
            | Connected docs =>
                match List.find (fun d => same_id (_id d) binary) docs with
                | None => (Raise (HTTPException 404 "Track not found"), w)
                | Some doc => (Return (to_item cfg doc), w)
                end
            | Unreachable error _ => (Raise (Exception error), w)
            | NotConfigured => (Raise (HTTPException 500 "Database not available"), w)
            end
        end
    end.

(** [FileResponse(path, media_type=content_type)]: the file streamed and
    the media type the handler asked for ([None]: left to the framework). *)
Record FileResponse : Type := mkFileResponse {
  path : string;
  media_type : option string;
  body : list Byte.byte
}.

(** GET /media/{filename}; [fname] is the path parameter.  The lookup of
    the record is guarded by [db is not None] only: what [find_one] raises
    is not caught. *)
Definition serve_media (fname : string) : M FileResponse :=
  fun w =>
    match uploads w !! fname with
    | None => (Raise (HTTPException 404 "File not found"), w)
    | Some bytes =>
        match store w with
        | NotConfigured => (Return (mkFileResponse fname None bytes), w)
        | Unreachable error _ => (Raise (Exception error), w)
        | Connected docs =>
            let ctype :=
              match List.find (fun d => String.eqb (filename (doc_track d)) fname) docs with
              | Some rec =>
                  if PyStr.truthy (content_type (doc_track rec))
                  then Some (content_type (doc_track rec))
                  else None
              | None => None
              end in
            (Return (mkFileResponse fname ctype bytes), w)
        end
    end.

(** Newest first: along the list, creation times never increase. *)
Definition newest_first (l : list Doc) : Prop :=
  StronglySorted (fun x y => created_at y <= created_at x) l.

(** The collection's natural order is the creation order: every document
    was stamped strictly later than the ones inserted before it. *)
Definition created_in_order (l : list Doc) : Prop :=
  StronglySorted (fun x y => created_at x < created_at y) l.

(** Any character [int(s, 16)] reads as a digit. *)
Definition is_hex (a : ascii) : bool :=
  match hex_value a with Some _ => true | None => false end.

(** ** Sample data *)

Definition cfg0 : Config :=
  mkConfig None (fun u => if PyStr.startswith u "http" then inr u else inl "URL scheme should be 'http' or 'https'").

Definition world0 : World := mkWorld ∅ (Connected []) [].

Definition song : UploadFile :=
  mkUploadFile "song.mp3" (Some "audio/mpeg") (Some 999)
               [Byte.x49; Byte.x44; Byte.x33].

Definition picture : UploadFile :=
  mkUploadFile "cover.png" (Some "image/png") None [Byte.x89; Byte.x50].

Definition oracle_ok (rnd : Z) (oid : ObjectId) (t : Z) : Oracle :=
  mkOracle rnd None Written (inr oid) None t (t + 1).

(** The insert raises; the removal of the saved file works. *)
Definition oracle_insert_fails (rnd : Z) : Oracle :=
  mkOracle rnd None Written (inl "connection refused") None 100 101.


Definition track_of (name : string) : Track :=
  mkTrack name None None None None (name +:+ ".mp3") (name +:+ ".mp3") "audio/mpeg" 3.

(** The collection after inserting A, B and C, in this order, into an empty
    one at the clock readings 10, 20 and 30. *)
Definition world_abc : World :=
  snd (create_document (oracle_ok 3 3 30) "track" (track_of "C")
    (snd (create_document (oracle_ok 2 2 20) "track" (track_of "B")
      (snd (create_document (oracle_ok 1 1 10) "track" (track_of "A") world0))))).

(** A blob on disk while the store is not configured. *)
Definition world_no_db : World :=
  mkWorld {[ "a.mp3" := [Byte.x49; Byte.x44; Byte.x33] ]} NotConfigured [].

(** The same blob with its record, while the configured store cannot be
    reached. *)
Definition world_unreachable : World :=
  mkWorld {[ "a.mp3" := [Byte.x49; Byte.x44; Byte.x33] ]}
          (Unreachable "connection refused"
             [mkDoc 1 10 (mkTrack "A" None None None None "a.mp3" "a.mp3" "audio/mpeg" 3)])
          [].

(** The extension as the prose describes it: the substring from the last
    [.] onward, empty when there is no [.]. *)
Definition ext_from_last_dot (s : string) : string :=
  let i := PyStr.rfind s "."%char in
  if i <? 0 then EmptyString else PyStr.drop (Z.to_nat i) s.

(** The last occurrence of [c] in [s], by structural recursion; used to
    reason about [rfind]. *)
Fixpoint rindex (c : ascii) (s : string) : option nat :=
  match s with
  | EmptyString => None
  | String a s' =>
      match rindex c s' with
      | Some k => Some (S k)
      | None => if Ascii.eqb a c then Some O else None
      end
  end.

(** [posixpath.basename]: [p[p.rfind("/") + 1:]], the last path component. *)
Definition basename (p : string) : string :=
  PyStr.drop (Z.to_nat (PyStr.rfind p "/"%char + 1)) p.

(** [s.lstrip(".")]. *)
Fixpoint lstrip_dots (s : string) : string :=
  match s with
  | EmptyString => EmptyString
  | String a s' => if Ascii.eqb a "."%char then lstrip_dots s' else s
  end.

(** The extension in structural terms: what follows the last [.] of the
    last path component once its leading dots are set aside. *)
Definition extension_of (original : string) : string :=
  ext_from_last_dot (lstrip_dots (basename original)).

(** [all(pred(c) for c in s)]. *)
Fixpoint str_all (pred : ascii -> bool) (s : string) : bool :=
  match s with
  | EmptyString => true
  | String a s' => pred a && str_all pred s'
  end.

(** The digits [0-9a-f]. *)
Definition is_lower_hex (a : ascii) : bool :=
  let n := Z.of_nat (nat_of_ascii a) in
  ((48 <=? n) && (n <=? 57)) || ((97 <=? n) && (n <=? 102)).

(** ** GET /test *)

(** What [test_database] can see of [database.db]: whether the handle has a
    [name] attribute, and what [db.list_collection_names()] does (the text
    of the exception it raises, or the names). *)
Record DbHandle : Type := mkDbHandle {
  handle_name : option string;
  list_collection_names : string + list string
}.

(** The response [dict] of [test_database]; [database_url] and
    [database_name] start as [None]. *)
Record DbReport : Type := mkDbReport {
  backend : string;
  database : string;
  database_url : option string;
  database_name : option string;
  connection_status : string;
  collections : list string
}.

Definition set_database (v : string) (r : DbReport) : DbReport :=
  mkDbReport (backend r) v (database_url r) (database_name r)
             (connection_status r) (collections r).
Definition set_database_url (v : string) (r : DbReport) : DbReport :=
  mkDbReport (backend r) (database r) (Some v) (database_name r)
             (connection_status r) (collections r).
Definition set_database_name (v : string) (r : DbReport) : DbReport :=
  mkDbReport (backend r) (database r) (database_url r) (Some v)
             (connection_status r) (collections r).
Definition set_connection_status (v : string) (r : DbReport) : DbReport :=
  mkDbReport (backend r) (database r) (database_url r) (database_name r)
             v (collections r).
Definition set_collections (v : list string) (r : DbReport) : DbReport :=
  mkDbReport (backend r) (database r) (database_url r) (database_name r)
             (connection_status r) v.

(** [os.getenv(name)] used as a condition: unset and empty are both false. *)
Definition env_set (v : option string) : bool :=
  match v with Some s => PyStr.truthy s | None => false end.

(** Lines 39-71.  [handle] is [database.db] ([None] when it is [None]),
    [DATABASE_URL] and [DATABASE_NAME] the environment variables.  Nothing
    in the outer [try] raises outside the inner one, so its [except] branch
    has no case here. *)
Definition test_database (handle : option DbHandle)
    (DATABASE_URL DATABASE_NAME : option string) : DbReport :=
  let response :=
    mkDbReport "✅ Running" "❌ Not Available" None None "Not Connected" [] in
  let response :=
    match handle with
    | Some h =>
        let response := set_database "✅ Available" response in
        let response := set_database_url "✅ Configured" response in
        let response :=
          set_database_name
            (match handle_name h with Some n => n | None => "✅ Connected" end)
            response in
        let response := set_connection_status "Connected" response in
        match list_collection_names h with
        | inr names =>
            let response := set_collections (firstn 10 names) response in
            set_database "✅ Connected & Working" response
        | inl e =>
            set_database ("⚠️  Connected but Error: " +:+ PyStr.take_chars 50 e) response
        end
    | None => set_database "⚠️  Available but not initialized" response
    end in
  let response :=
    set_database_url (if env_set DATABASE_URL then "✅ Set" else "❌ Not Set") response in
  let response :=
    set_database_name (if env_set DATABASE_NAME then "✅ Set" else "❌ Not Set") response in
  response.

(** ** Invariants and sample worlds for the handlers *)


(** Well-formed identifiers: 96-bit values, no two records sharing one. *)
Definition ids_well_formed (docs : list Doc) : Prop :=
  NoDup (map _id docs) /\ forall d, In d docs -> 0 <= _id d < 2 ^ 96.

(** [write] raises after two bytes. *)
Definition oracle_write_fails (rnd : Z) : Oracle :=
  mkOracle rnd None (WriteFailed "No space left on device" 2) (inr 1) None 100 101.

(** The world after [song] was uploaded into the empty one. *)
Definition world_song : World :=
  snd (upload_track cfg0 (oracle_ok 7 1 100) song "T" None None None None world0).

(** A store that is reachable but fails to list its collections. *)
Definition handle_failing : DbHandle :=
  mkDbHandle (Some "music") (inl "server selection timeout").

(** * Properties *)

(** ** Strings *)

Lemma append_String (a : ascii) (s t : string) :
  String a s +:+ t = String a (s +:+ t).
Proof. reflexivity. Qed.

Lemma append_Empty (t : string) : EmptyString +:+ t = t.
Proof. reflexivity. Qed.

Lemma length_append (s t : string) :
  String.length (s +:+ t) = (String.length s + String.length t)%nat.
Proof.
  induction s as [|a s IH]; [reflexivity|].
  rewrite append_String. simpl. now rewrite IH.
Qed.

Lemma take_drop (n : nat) (s : string) : PyStr.take n s +:+ PyStr.drop n s = s.
Proof.
  revert s; induction n as [|n IH]; intros [|a s]; simpl; try reflexivity.
  rewrite append_String. f_equal. apply IH.
Qed.

Lemma append_inv_tail (a b c : string) : a +:+ c = b +:+ c -> a = b.
Proof.
  revert b; induction a as [|x a IH]; intros [|y b] H.
  - reflexivity.
  - exfalso. apply (f_equal String.length) in H.
    rewrite !length_append in H. simpl in H. lia.
  - exfalso. apply (f_equal String.length) in H.
    rewrite !length_append in H. simpl in H. lia.
  - rewrite !append_String in H. injection H as -> H. f_equal. now apply IH.
Qed.

Lemma contains_append (c : ascii) (a b : string) :
  PyStr.contains c (a +:+ b) = PyStr.contains c a || PyStr.contains c b.
Proof.
  induction a as [|x a IH]; [reflexivity|].
  rewrite append_String. simpl. now rewrite IH, orb_assoc.
Qed.

Lemma contains_drop (c : ascii) (n : nat) (s : string) :
  PyStr.contains c s = false -> PyStr.contains c (PyStr.drop n s) = false.
Proof.
  revert s; induction n as [|n IH]; intros [|a s]; simpl; try easy.
  intros H. apply orb_false_iff in H as [_ H]. now apply IH.
Qed.

Lemma drop_drop (n m : nat) (s : string) :
  PyStr.drop n (PyStr.drop m s) = PyStr.drop (m + n) s.
Proof.
  revert s; induction m as [|m IH]; intros s; simpl; [reflexivity|].
  destruct s as [|a s]; simpl; [now destruct n|]. apply IH.
Qed.

Lemma rfind_from_rindex (c : ascii) (s : string) (i found : Z) :
  PyStr.rfind_from c s i found =
  match rindex c s with
  | Some k => i + Z.of_nat k
  | None => found
  end.
Proof.
  revert i found; induction s as [|a s IH]; intros i found; simpl; [reflexivity|].
  rewrite IH. destruct (rindex c s) as [k|].
  - lia.
  - destruct (Ascii.eqb a c); [lia | reflexivity].
Qed.

Lemma rfind_rindex (s : string) (c : ascii) :
  PyStr.rfind s c = match rindex c s with Some k => Z.of_nat k | None => -1 end.
Proof. unfold PyStr.rfind. rewrite rfind_from_rindex. now destruct (rindex c s). Qed.

Lemma rindex_None (c : ascii) (s : string) :
  rindex c s = None -> PyStr.contains c s = false.
Proof.
  induction s as [|a s IH]; simpl; [reflexivity|].
  destruct (rindex c s); [discriminate|].
  destruct (Ascii.eqb a c); [discriminate|]. intros _. now apply IH.
Qed.

Lemma rindex_Some (c : ascii) (s : string) (k : nat) :
  rindex c s = Some k ->
  String.get k s = Some c /\ PyStr.contains c (PyStr.drop (S k) s) = false.
Proof.
  revert k; induction s as [|a s IH]; intros k; simpl; [discriminate|].
  destruct (rindex c s) as [j|] eqn:E.
  - intros [= <-]. now apply IH.
  - destruct (Ascii.eqb a c) eqn:Eac; [|discriminate].
    intros [= <-]. apply Ascii.eqb_eq in Eac as ->. split; [reflexivity|].
    simpl. now apply rindex_None.
Qed.

(** ** [os.path.splitext] *)

Lemma splitext_join (p : string) :
  fst (os_path_splitext p) +:+ snd (os_path_splitext p) = p.
Proof.
  unfold os_path_splitext, genericpath_splitext.
  destruct (_ && _); simpl.
  - apply take_drop.
  - clear. induction p as [|a p IH]; [reflexivity|].
    rewrite append_String. now f_equal.
Qed.

Lemma splitext_ext_cases (p : string) :
  snd (os_path_splitext p) = EmptyString \/
  snd (os_path_splitext p) = ext_from_last_dot p.
Proof.
  unfold os_path_splitext, genericpath_splitext, ext_from_last_dot.
  rewrite !rfind_rindex.
  destruct (rindex "/" p) as [ks|], (rindex "." p) as [kd|];
    destruct (_ && _) eqn:E; simpl; auto;
    apply andb_true_iff in E as [E _]; apply Z.ltb_lt in E; try lia;
    right; destruct (Z.ltb_spec (Z.of_nat kd) 0); (lia || reflexivity).
Qed.

Lemma splitext_ext_no_sep (p : string) :
  PyStr.contains "/" (snd (os_path_splitext p)) = false.
Proof.
  unfold os_path_splitext, genericpath_splitext.
  rewrite !rfind_rindex.
  destruct (rindex "/" p) as [ks|] eqn:Es, (rindex "." p) as [kd|] eqn:Ed;
    destruct (_ && _) eqn:E; simpl; try reflexivity;
    apply andb_true_iff in E as [E _]; apply Z.ltb_lt in E; try lia.
  - apply rindex_Some in Es as [_ Es].
    rewrite Nat2Z.id.
    replace kd with (S ks + (kd - S ks))%nat by lia.
    rewrite <- drop_drop. now apply contains_drop.
  - rewrite Nat2Z.id. apply contains_drop. now apply rindex_None.
Qed.

Lemma splitext_no_dot (p : string) :
  PyStr.contains "." p = false -> snd (os_path_splitext p) = EmptyString.
Proof.
  intros H. unfold os_path_splitext, genericpath_splitext.
  rewrite !rfind_rindex.
  destruct (rindex "." p) as [kd|] eqn:Ed.
  - apply rindex_Some in Ed as [Hget _]. exfalso.
    clear -H Hget. revert kd Hget; induction p as [|a p IH]; intros kd Hget.
    + destruct kd; discriminate.
    + simpl in H. apply orb_false_iff in H as [Ha Hp].
      destruct kd as [|kd]; simpl in Hget.
      * injection Hget as ->. now rewrite Ascii.eqb_refl in Ha.
      * eauto.
  - destruct (rindex "/" p) as [ks|]; simpl.
    + destruct (Z.ltb_spec (Z.of_nat ks) (-1)); [lia | reflexivity].
    + reflexivity.
Qed.

(** ** The uuid token *)

Lemma hex_digit_lower (d : Z) : is_lower_hex (hex_digit d) = true.
Proof.
  unfold hex_digit.
  destruct (Z.to_nat d) as [|n]; [reflexivity|].
  do 15 (destruct n as [|n]; [reflexivity|]).
  simpl. now destruct n.
Qed.

Lemma hex_fixed_length (width : nat) (n : Z) :
  String.length (hex_fixed width n) = width.
Proof. induction width as [|k IH]; simpl; [reflexivity | now rewrite IH]. Qed.

Lemma hex_fixed_lower (width : nat) (n : Z) :
  str_all is_lower_hex (hex_fixed width n) = true.
Proof.
  induction width as [|k IH]; simpl; [reflexivity|].
  now rewrite hex_digit_lower, IH.
Qed.

Lemma str_all_not_contains (pred : ascii -> bool) (c : ascii) (s : string) :
  pred c = false -> str_all pred s = true -> PyStr.contains c s = false.
Proof.
  intros Hc. induction s as [|a s IH]; simpl; [reflexivity|].
  intros H. apply andb_true_iff in H as [Ha Hs].
  rewrite (IH Hs), orb_false_r.
  destruct (Ascii.eqb a c) eqn:E; [|reflexivity].
  apply Ascii.eqb_eq in E as ->. congruence.
Qed.

Lemma below_pow2_of_bits (x n : Z) :
  0 <= n -> 0 <= x -> (forall k, n <= k -> Z.testbit x k = false) -> x < 2 ^ n.
Proof.
  intros Hn Hx Hbits.
  destruct (Z.eq_dec x 0) as [->|Hnz]; [apply Z.pow_pos_nonneg; lia|].
  apply Z.log2_lt_pow2; [lia|].
  destruct (Z_lt_le_dec (Z.log2 x) n) as [|Hle]; [assumption|].
  specialize (Hbits _ Hle). rewrite Z.bit_log2 in Hbits by lia. discriminate.
Qed.

(** The forced bits keep the value inside 128 bits, so [hex_fixed 32]
    prints all of it. *)
Lemma uuid4_int_range (rnd : Z) : 0 <= uuid4_int rnd < 2 ^ 128.
Proof.
  unfold uuid4_int.
  assert (H : 0 <= rnd mod 2 ^ 128 < 2 ^ 128) by (apply Z.mod_pos_bound; lia).
  set (r := rnd mod 2 ^ 128) in *.
  assert (Hnn : 0 <= Z.lor (Z.land (Z.lor (Z.land r (Z.lnot (Z.shiftl 0xc000 48)))
                                          (Z.shiftl 0x8000 48))
                                   (Z.lnot (Z.shiftl 0xf000 64)))
                           (Z.shiftl 4 76)).
  { apply Z.lor_nonneg. split; [|now vm_compute].
    apply Z.land_nonneg. left.
    apply Z.lor_nonneg. split; [|now vm_compute].
    apply Z.land_nonneg. left. lia. }
  split; [exact Hnn|].
  apply below_pow2_of_bits; [lia | exact Hnn |].
  intros k Hk.
  assert (Hr : Z.testbit r k = false).
  { destruct (Z.eq_dec r 0) as [->|]; [apply Z.bits_0|].
    apply Z.bits_above_log2; [lia|].
    apply Z.lt_le_trans with 128; [apply Z.log2_lt_pow2; lia | lia]. }
  assert (Hc : forall c s, 0 < c < 2 ^ 16 -> 0 <= s <= 76 -> Z.testbit (Z.shiftl c s) k = false).
  { intros c s Hcr Hs. rewrite Z.shiftl_spec by lia.
    apply Z.bits_above_log2; [lia|].
    apply Z.lt_le_trans with 16; [apply Z.log2_lt_pow2; lia | lia]. }
  rewrite Z.lor_spec, Z.land_spec, Z.lor_spec, Z.land_spec, Hr.
  rewrite (Hc 0x8000 48), (Hc 4 76) by lia. reflexivity.
Qed.

Ltac uuid4_bits k :=
  unfold uuid4_int, uuid4_forced_mask, uuid4_forced_bits;
  repeat first [rewrite Z.land_spec | rewrite Z.lor_spec | rewrite Z.ldiff_spec
               | rewrite Z.lnot_spec by lia];
  pose proof (Z.ldiff_spec (Z.shiftl 0x8000 48) (Z.shiftl 0xc000 48) k) as H1;
  pose proof (Z.ldiff_spec (Z.shiftl 4 76) (Z.shiftl 0xf000 64) k) as H2;
  pose proof (Z.land_spec (Z.shiftl 0xc000 48) (Z.shiftl 0xf000 64) k) as H3;
  change (Z.ldiff (Z.shiftl 0x8000 48) (Z.shiftl 0xc000 48)) with 0 in H1;
  change (Z.ldiff (Z.shiftl 4 76) (Z.shiftl 0xf000 64)) with 0 in H2;
  change (Z.land (Z.shiftl 0xc000 48) (Z.shiftl 0xf000 64)) with 0 in H3;
  rewrite Z.bits_0 in H1, H2, H3;
  destruct (Z.testbit (Z.shiftl 0x8000 48) k), (Z.testbit (Z.shiftl 0xc000 48) k),
           (Z.testbit (Z.shiftl 4 76) k), (Z.testbit (Z.shiftl 0xf000 64) k);
  simpl in *; try discriminate.

(** The version and variant bits are the same for every random draw. *)
Lemma uuid4_forced (rnd : Z) :
  Z.land (uuid4_int rnd) uuid4_forced_mask = uuid4_forced_bits.
Proof.
  apply Z.bits_inj'. intros k Hk. uuid4_bits k;
    now rewrite ?andb_false_r, ?andb_true_r, ?orb_false_r, ?orb_true_r.
Qed.

(** Every other bit is the random source's. *)
Lemma uuid4_free (rnd : Z) :
  Z.ldiff (uuid4_int rnd) uuid4_forced_mask = Z.ldiff (rnd mod 2 ^ 128) uuid4_forced_mask.
Proof.
  apply Z.bits_inj'. intros k Hk. uuid4_bits k;
    now rewrite ?andb_false_r, ?andb_true_r, ?orb_false_r, ?orb_true_r.
Qed.

(** *** The token as text *)

Lemma hex_value_hex_digit (d : Z) : 0 <= d < 16 -> hex_value (hex_digit d) = Some d.
Proof.
  intros H.
  assert (Hd : d = 0 \/ d = 1 \/ d = 2 \/ d = 3 \/ d = 4 \/ d = 5 \/ d = 6 \/ d = 7 \/
               d = 8 \/ d = 9 \/ d = 10 \/ d = 11 \/ d = 12 \/ d = 13 \/ d = 14 \/ d = 15)
    by lia.
  repeat (destruct Hd as [->|Hd]; [reflexivity|]). now subst.
Qed.

Lemma nibble (n : Z) (k : nat) :
  Z.land (Z.shiftr n (4 * Z.of_nat k)) 15 = (n / 16 ^ Z.of_nat k) mod 16.
Proof.
  rewrite Z.shiftr_div_pow2 by lia.
  change 15 with (Z.ones 4). rewrite Z.land_ones by lia.
  rewrite Z.pow_mul_r by lia. reflexivity.
Qed.

(** Reading back what [hex_fixed] printed gives the value, within the
    printed width. *)
Lemma hex_parse_hex_fixed (width : nat) (n acc : Z) :
  hex_parse (hex_fixed width n) acc
  = Some (acc * 16 ^ Z.of_nat width + n mod 16 ^ Z.of_nat width).
Proof.
  revert acc; induction width as [|k IH]; intros acc.
  - simpl. rewrite Z.mod_1_r. f_equal. lia.
  - cbn [hex_fixed hex_parse]. rewrite nibble.
    rewrite hex_value_hex_digit by (apply Z.mod_pos_bound; lia).
    rewrite IH. f_equal.
    rewrite Nat2Z.inj_succ, Z.pow_succ_r by lia.
    assert (Hpos : 0 < 16 ^ Z.of_nat k) by (apply Z.pow_pos_nonneg; lia).
    rewrite (Z.mul_comm 16 (16 ^ Z.of_nat k)).
    rewrite (Z.rem_mul_r n (16 ^ Z.of_nat k) 16) by lia.
    lia.
Qed.

Lemma hex_fixed_inj (width : nat) (a b : Z) :
  0 <= a < 16 ^ Z.of_nat width -> 0 <= b < 16 ^ Z.of_nat width ->
  hex_fixed width a = hex_fixed width b -> a = b.
Proof.
  intros Ha Hb H.
  pose proof (hex_parse_hex_fixed width a 0) as Pa.
  pose proof (hex_parse_hex_fixed width b 0) as Pb.
  rewrite H, Pb in Pa. injection Pa as Pa.
  rewrite !Z.mod_small in Pa by lia. lia.
Qed.

(** The token prints the whole uuid value: reading it back gives it. *)
Lemma uuid4_hex_parse (rnd : Z) :
  hex_parse (uuid4_hex rnd) 0 = Some (uuid4_int rnd).
Proof.
  unfold uuid4_hex. rewrite hex_parse_hex_fixed.
  change (16 ^ Z.of_nat 32) with (2 ^ 128).
  rewrite Z.mod_small by apply uuid4_int_range. reflexivity.
Qed.

(** ** The URL builder *)

(** C9.  For every filename and every configuration, [build_media_url]
    returns [<base>/media/<filename>] when a public base URL is configured
    and exactly [/media/<filename>] when none is; the result is this closed
    expression of the filename and the configured base and of nothing else,
    so equal inputs always give the same string. *)
Theorem build_media_url_spec (base : option string) (filename : string) :
  build_media_url base filename =
  match base with
  | Some b => b +:+ "/media/" +:+ filename
  | None => "/media/" +:+ filename
  end.
Proof.
  destruct base as [[|a b]|]; reflexivity.
Qed.

(** ** The storage name *)

Lemma unique_name_no_sep (rnd : Z) (original : string) :
  PyStr.contains "/" (unique_name rnd original) = false.
Proof.
  unfold unique_name. rewrite contains_append, splitext_ext_no_sep, orb_false_r.
  apply (str_all_not_contains is_lower_hex); [reflexivity|].
  apply hex_fixed_lower.
Qed.

Lemma split_no_sep (c : ascii) (s : string) :
  PyStr.contains c s = false -> PyStr.split c s = [s].
Proof.
  induction s as [|a s IH]; simpl; [reflexivity|].
  intros H. apply orb_false_iff in H as [Ha Hs].
  now rewrite Ha, (IH Hs).
Qed.

Lemma unique_name_head (rnd : Z) (original : string) :
  exists a rest, unique_name rnd original = String a rest /\ is_lower_hex a = true.
Proof.
  unfold unique_name, uuid4_hex. simpl hex_fixed. rewrite append_String.
  eexists _, _. split; [reflexivity|]. apply hex_digit_lower.
Qed.

(** *** [os.path.splitext] against its structural description *)

Lemma rindex_contains_false (c : ascii) (s : string) :
  PyStr.contains c s = false -> rindex c s = None.
Proof.
  induction s as [|a s IH]; simpl; [reflexivity|].
  intros H. apply orb_false_iff in H as [Ha Hs]. now rewrite (IH Hs), Ha.
Qed.

Lemma rindex_lt (c : ascii) (s : string) (k : nat) :
  rindex c s = Some k -> (k < String.length s)%nat.
Proof.
  revert k; induction s as [|a s IH]; intros k; simpl; [discriminate|].
  destruct (rindex c s) as [j|].
  - intros [= <-]. specialize (IH j eq_refl). lia.
  - destruct (Ascii.eqb a c); [intros [= <-]; lia | discriminate].
Qed.

Lemma rindex_append (c : ascii) (s t : string) :
  rindex c (s +:+ t) =
  match rindex c t with
  | Some k => Some (String.length s + k)%nat
  | None => rindex c s
  end.
Proof.
  induction s as [|a s IH].
  - rewrite append_Empty. now destruct (rindex c t).
  - rewrite append_String. simpl. rewrite IH.
    now destruct (rindex c t).
Qed.

Lemma get_append_r (s t : string) (j : nat) :
  String.get (String.length s + j) (s +:+ t) = String.get j t.
Proof. induction s as [|a s IH]; [reflexivity|]. rewrite append_String. exact IH. Qed.

Lemma drop_append_r (s t : string) (j : nat) :
  PyStr.drop (String.length s + j) (s +:+ t) = PyStr.drop j t.
Proof. induction s as [|a s IH]; [reflexivity|]. rewrite append_String. exact IH. Qed.

Lemma length_take (n : nat) (s : string) :
  (n <= String.length s)%nat -> String.length (PyStr.take n s) = n.
Proof.
  revert s; induction n as [|n IH]; intros [|a s] H; simpl in *; try lia.
  rewrite IH; lia.
Qed.

Lemma ext_from_last_dot_rindex (s : string) :
  ext_from_last_dot s =
  match rindex "." s with
  | Some k => PyStr.drop k s
  | None => EmptyString
  end.
Proof.
  unfold ext_from_last_dot. rewrite rfind_rindex.
  destruct (rindex "." s) as [k|]; [|reflexivity].
  destruct (Z.ltb_spec (Z.of_nat k) 0); [lia|]. now rewrite Nat2Z.id.
Qed.

Lemma lstrip_dots_no_dot (s : string) :
  PyStr.contains "." s = false -> lstrip_dots s = s.
Proof.
  destruct s as [|a s]; simpl; [reflexivity|].
  intros H. apply orb_false_iff in H as [-> _]. reflexivity.
Qed.

Lemma splitext_scan_append (pre b : string) (c : ascii) (i steps : nat) :
  splitext_scan (pre +:+ b) c (String.length pre + i) steps = splitext_scan b c i steps.
Proof.
  revert i; induction steps as [|k IH]; intros i; simpl; [reflexivity|].
  rewrite get_append_r.
  destruct (String.get i b) as [a|]; [|reflexivity].
  destruct (Ascii.eqb a c); [|reflexivity].
  rewrite <- IH. f_equal. lia.
Qed.

Lemma splitext_scan_tail (a : ascii) (b : string) (c : ascii) (i steps : nat) :
  splitext_scan (String a b) c (S i) steps = splitext_scan b c i steps.
Proof. exact (splitext_scan_append (String a EmptyString) b c i steps). Qed.

(** The loop over the last component decides between its extension and
    none, as stripping the leading dots does. *)
Lemma scan_lstrip (b : string) (k : nat) :
  rindex "." b = Some k ->
  ext_from_last_dot (lstrip_dots b) =
  if splitext_scan b "." 0 k then PyStr.drop k b else EmptyString.
Proof.
  revert k; induction b as [|a b IH]; intros k; [discriminate|].
  simpl rindex. destruct (rindex "." b) as [j|] eqn:Ej.
  - intros [= <-]. simpl splitext_scan. simpl lstrip_dots.
    destruct (Ascii.eqb a ".") eqn:Ea.
    + rewrite splitext_scan_tail. now apply IH.
    + rewrite ext_from_last_dot_rindex. simpl rindex. now rewrite Ej.
  - destruct (Ascii.eqb a ".") eqn:Ea; [|discriminate].
    intros [= <-]. simpl. rewrite Ea.
    rewrite lstrip_dots_no_dot by now apply rindex_None.
    rewrite ext_from_last_dot_rindex. now rewrite Ej.
Qed.

Lemma splitext_decomposed (pre b : string) :
  PyStr.contains "/" b = false ->
  rindex "/" pre = match pre with EmptyString => None | _ => Some (String.length pre - 1)%nat end ->
  snd (os_path_splitext (pre +:+ b)) = ext_from_last_dot (lstrip_dots b).
Proof.
  intros Hb Hpre.
  unfold os_path_splitext, genericpath_splitext.
  rewrite !rfind_rindex, !rindex_append.
  rewrite (rindex_contains_false _ _ Hb), Hpre.
  assert (Hn : Z.to_nat (match (match pre with
                                | EmptyString => None
                                | String _ _ => Some (String.length pre - 1)%nat
                                end) with
                         | Some k => Z.of_nat k
                         | None => -1
                         end + 1) = String.length pre).
  { destruct pre; simpl String.length; lia. }
  rewrite Hn.
  destruct (rindex "." b) as [k|] eqn:Ek.
  - rewrite (scan_lstrip _ _ Ek).
    replace (Z.to_nat (Z.of_nat (String.length pre + k) - _)) with k
      by (destruct pre; simpl String.length; lia).
    rewrite <- (Nat.add_0_r (String.length pre)) at 2.
    rewrite splitext_scan_append.
    match goal with |- context [(?x <? ?y) && _] => destruct (Z.ltb_spec x y) as [_|Hge] end.
    + simpl andb. destruct (splitext_scan b "." 0 k); simpl; [|reflexivity].
      rewrite Nat2Z.id. apply drop_append_r.
    + exfalso. destruct pre; simpl String.length in Hge; lia.
  - rewrite lstrip_dots_no_dot by now apply rindex_None.
    rewrite ext_from_last_dot_rindex, Ek.
    match goal with |- context [(?x <? ?y) && _] => destruct (Z.ltb_spec x y) as [Hlt|_] end;
      [|reflexivity].
    exfalso. destruct (rindex "." pre) as [kd|] eqn:Ed.
    + apply rindex_lt in Ed. destruct pre; simpl String.length in *; lia.
    + destruct pre; simpl String.length in *; lia.
Qed.

Lemma splitext_ext_structural (p : string) :
  snd (os_path_splitext p) = extension_of p.
Proof.
  unfold extension_of, basename. rewrite rfind_rindex.
  destruct (rindex "/" p) as [ks|] eqn:Es.
  - replace (Z.to_nat (Z.of_nat ks + 1)) with (S ks) by lia.
    rewrite <- (take_drop (S ks) p) at 1.
    apply splitext_decomposed.
    + now apply rindex_Some in Es.
    + pose proof (rindex_lt _ _ _ Es) as Hlt.
      assert (Hlen : String.length (PyStr.take (S ks) p) = S ks) by (apply length_take; lia).
      assert (Hd : rindex "/" (PyStr.drop (S ks) p) = None).
      { apply rindex_contains_false. now apply rindex_Some in Es. }
      pose proof Es as Es'.
      rewrite <- (take_drop (S ks) p), rindex_append, Hd in Es'.
      rewrite Es'.
      destruct (PyStr.take (S ks) p); simpl in Hlen; [discriminate|].
      simpl String.length. f_equal. lia.
  - simpl Z.to_nat. simpl PyStr.drop.
    change p with (EmptyString +:+ p) at 1.
    apply splitext_decomposed; [now apply rindex_None | reflexivity].
Qed.

(** The prose's extension and the code's differ on a name that is only a
    leading dot and letters: [".mp3"] has no extension for
    [os.path.splitext], so the storage name is the bare token.  And the
    token does not carry all 128 bits of the random source: two draws that
    differ in a variant bit print the same token. *)
Lemma extension_leading_dot_counterexample :
  ext_from_last_dot ".mp3" = ".mp3" /\
  unique_name 7 ".mp3" = uuid4_hex 7 /\
  unique_name 7 ".mp3" <> uuid4_hex 7 +:+ ext_from_last_dot ".mp3" /\
  uuid4_hex 0 = uuid4_hex (2 ^ 62).
Proof. repeat split. vm_compute. discriminate. Qed.

(** C4 (as amended).  For every original filename and every outcome of the
    random source, the storage name is the uuid4 token followed by the
    extension that [os.path.splitext] finds.  The token is 32 lowercase hex
    digits that print, and read back as, a 128-bit value whose six version
    and variant bits are fixed and whose other 122 bits are the random
    source's.  The extension
    is the substring from the last [.] onward of the last path component
    once its leading dots are set aside, empty when that has no [.]: so it
    is empty when the original filename has no [.], and when it is not
    empty it is the substring of the original filename from its last [.]
    onward. *)
Theorem unique_name_spec (rnd : Z) (original : string) :
  unique_name rnd original = uuid4_hex rnd +:+ extension_of original /\
  String.length (uuid4_hex rnd) = 32%nat /\
  str_all is_lower_hex (uuid4_hex rnd) = true /\
  hex_parse (uuid4_hex rnd) 0 = Some (uuid4_int rnd) /\
  0 <= uuid4_int rnd < 2 ^ 128 /\
  Z.land (uuid4_int rnd) uuid4_forced_mask = uuid4_forced_bits /\
  Z.ldiff (uuid4_int rnd) uuid4_forced_mask = Z.ldiff (rnd mod 2 ^ 128) uuid4_forced_mask /\
  (extension_of original = EmptyString \/
   extension_of original = ext_from_last_dot original) /\
  (PyStr.contains "." original = false -> extension_of original = EmptyString).
Proof.
  rewrite <- splitext_ext_structural.
  split; [reflexivity|].
  split; [apply hex_fixed_length|].
  split; [apply hex_fixed_lower|].
  split; [apply uuid4_hex_parse|].
  split; [apply uuid4_int_range|].
  split; [apply uuid4_forced|].
  split; [apply uuid4_free|].
  split; [apply splitext_ext_cases | apply splitext_no_dot].
Qed.

(** The storage name equals the original filename when the uploader's
    name is the token itself followed by an extension. *)
Lemma unique_name_collision_counterexample :
  unique_name 7 "00000000000040008000000000000007.mp3"
  = "00000000000040008000000000000007.mp3".
Proof. reflexivity. Qed.

(** C5 (as amended).  For every uploader-supplied original filename and
    every outcome of the random source, the storage name contains no path
    separator, none of its path segments is the parent directory [..] (nor
    the current directory [.]), its token is never empty, and it equals the
    original filename exactly when the original filename is that very token
    followed by its own extension; for every other original filename the
    two are distinct. *)
Theorem unique_name_safe (rnd : Z) (original : string) :
  PyStr.contains "/" (unique_name rnd original) = false /\
  ~ In ".." (PyStr.split "/" (unique_name rnd original)) /\
  ~ In "." (PyStr.split "/" (unique_name rnd original)) /\
  String.length (uuid4_hex rnd) = 32%nat /\
  (unique_name rnd original = original <->
   fst (os_path_splitext original) = uuid4_hex rnd).
Proof.
  pose proof (unique_name_no_sep rnd original) as Hsep.
  destruct (unique_name_head rnd original) as (a & rest & Hname & Ha).
  split; [exact Hsep|].
  rewrite (split_no_sep _ _ Hsep), Hname.
  split; [|split; [|split; [|split]]].
  - intros [H|[]]. injection H as -> _. discriminate.
  - intros [H|[]]. injection H as -> _. discriminate.
  - apply hex_fixed_length.
  - intros H. rewrite <- Hname in H. unfold unique_name in H.
    rewrite <- (splitext_join original) in H at 2.
    symmetry. exact (append_inv_tail _ _ _ H).
  - intros H. rewrite <- Hname. unfold unique_name. rewrite <- H.
    apply splitext_join.
Qed.

(** ** The upload handler *)

Lemma db_Some (w : World) (docs : list Doc) :
  db w = Some docs -> store w = Connected docs.
Proof. unfold db. destruct (store w); congruence. Qed.

Ltac run_m :=
  unfold mbind, mret, M_bind, M_ret, bind, ret, raise, try_except, lift in *.

Lemma save_file_Return (o : Oracle) (file : UploadFile) (dest : string) (w w1 : World) (size : Z) :
  save_file o file dest w = (Return size, w1) ->
  read_error o = None /\ write_outcome o = Written /\
  size = Z.of_nat (length (file_body file)) /\
  w1 = log (BlobWrite dest (length (file_body file)))
           (set_uploads (<[dest := file_body file]> (uploads w))
                        (log (FileRead (length (file_body file))) w)).
Proof.
  unfold save_file, file_read, write_file. run_m.
  destruct (read_error o); [discriminate|].
  destruct (write_outcome o); try discriminate.
  intros [= <- <-]. auto.
Qed.

Lemma create_record_Raise (cfg : Config) (o : Oracle) (file : UploadFile) (ct dest : string)
    (size : Z) (t : string) (a al g c : option string) (w1 w2 : World) (e : Exn) :
  create_record cfg o file ct dest size t a al g c w1 = (Raise e, w2) -> w2 = w1.
Proof.
  unfold create_record, create_document. run_m.
  destruct (Track_new _ _ _ _ _ _ _ _ _ _); simpl; [now intros [= _ <-]|].
  destruct (store w1); simpl; [now intros [= _ <-] | now intros [= _ <-] |].
  destruct (insert_outcome o); simpl; [now intros [= _ <-] | discriminate].
Qed.

Lemma create_record_Return (cfg : Config) (o : Oracle) (file : UploadFile) (ct dest : string)
    (size : Z) (t : string) (a al g c : option string) (w1 w2 : World) (r : Track * string) :
  create_record cfg o file ct dest size t a al g c w1 = (Return r, w2) ->
  exists docs oid,
    db w1 = Some docs /\ insert_outcome o = inr oid /\
    Track_new cfg t a al g c dest (file_filename file) ct size = inr (fst r) /\
    snd r = str_ObjectId oid /\
    w2 = log (DocInsert oid) (set_docs (docs ++ [mkDoc oid (now_insert o) (fst r)]) w1).
Proof.
  unfold create_record, create_document, db. run_m.
  destruct (Track_new _ _ _ _ _ _ _ _ _ _) as [msg|track]; simpl; [discriminate|].
  destruct (store w1) as [|error docs|docs]; simpl; [discriminate | discriminate |].
  destruct (insert_outcome o) as [msg|oid]; simpl; [discriminate|].
  intros [= <- <-]. exists docs, oid. auto.
Qed.

Lemma Track_new_fields (cfg : Config) (t : string) (a al g c : option string)
    (fn orig ct : string) (size : Z) (track : Track) :
  Track_new cfg t a al g c fn orig ct size = inr track ->
  title track = t /\ artist track = a /\ album track = al /\ genre track = g /\
  filename track = fn /\ original_filename track = orig /\
  content_type track = ct /\ file_size track = size /\ 0 <= size.
Proof.
  unfold Track_new. destruct (Z.ltb_spec size 0); [discriminate|].
  destruct c as [u|]; [destruct (HttpUrl cfg u); [discriminate|]|];
    intros [= <-]; simpl; auto 10.
Qed.

(** What a successful upload went through and what it left behind. *)
Lemma upload_track_Return (cfg : Config) (o : Oracle) (file : UploadFile)
    (t : string) (a al g c : option string) (w w' : World) (resp : JObject) :
  upload_track cfg o file t a al g c w = (Return resp, w') ->
  exists ct track oid docs,
    file_content_type file = Some ct /\ is_audio (Some ct) = true /\
    read_error o = None /\ write_outcome o = Written /\
    db w = Some docs /\ insert_outcome o = inr oid /\
    Track_new cfg t a al g c (unique_name (urandom16 o) (file_filename file))
              (file_filename file) ct (Z.of_nat (length (file_body file))) = inr track /\
    resp = upload_response cfg o track (str_ObjectId oid) /\
    uploads w' = <[unique_name (urandom16 o) (file_filename file) := file_body file]> (uploads w) /\
    db w' = Some (docs ++ [mkDoc oid (now_insert o) track]) /\
    effects w' = effects w ++ [FileRead (length (file_body file));
                               BlobWrite (unique_name (urandom16 o) (file_filename file))
                                         (length (file_body file));
                               DocInsert oid].
Proof.
  unfold upload_track.
  destruct (file_content_type file) as [ct|]; [|discriminate].
  destruct (is_audio (Some ct)) eqn:Haudio; cbn [negb]; [|discriminate].
  set (dest := unique_name (urandom16 o) (file_filename file)).
  unfold mbind at 1, M_bind, bind.
  destruct (save_file o file dest w) as [[e|size] w1] eqn:Hsave; [discriminate|].
  apply save_file_Return in Hsave as (Hread & Hwrite & -> & ->).
  unfold mbind, M_bind, bind, try_except.
  match goal with |- context [create_record ?a ?b ?c ?d ?e ?f ?g ?h ?i ?j ?k ?l] =>
    destruct (create_record a b c d e f g h i j k l) as [[e'|r] w2] eqn:Hrec end.
  - unfold rollback, mbind, M_bind, bind, try_except, raise.
    destruct (os_remove o dest _) as [[?|?] ?]; discriminate.
  - apply create_record_Return in Hrec as (docs & oid & Hdb & Hins & Htrack & Hid & ->).
    unfold mret, M_ret, ret. intros [= <- <-].
    exists ct, (fst r), oid, docs. rewrite Hid. simpl in Hdb.
    repeat split; auto.
    simpl. now rewrite <- !app_assoc.
Qed.

(** C6.  For every upload whose declared content type is absent or does
    not start with [audio/], the handler raises the 400 "Only audio files
    are allowed" and leaves the world exactly as it found it: the upload
    directory, the collection and the record of I/O are unchanged, so no
    byte was read, no blob written and no Track created. *)
Theorem upload_rejects_non_audio (cfg : Config) (o : Oracle) (file : UploadFile)
    (t : string) (a al g c : option string) (w : World) :
  file_content_type file = None \/
  (exists ct, file_content_type file = Some ct /\ PyStr.startswith ct "audio/" = false) ->
  upload_track cfg o file t a al g c w
  = (Raise (HTTPException 400 "Only audio files are allowed"), w).
Proof.
  unfold upload_track. intros [-> | (ct & -> & Hct)]; [reflexivity|].
  unfold is_audio. rewrite Hct, andb_false_r. reflexivity.
Qed.

Lemma upload_rejects_non_audio_witness :
  upload_track cfg0 (oracle_ok 7 1 100) picture "T" None None None None world0
  = (Raise (HTTPException 400 "Only audio files are allowed"), world0).
Proof.
  apply upload_rejects_non_audio.
  right. exists "image/png". split; reflexivity.
Defined.

(** C1.  For every upload in which the blob write succeeds but the
    metadata step (building the Track and inserting it) fails, the handler
    removes the file it has just written, swallowing a failure of the
    removal itself, raises the 500 "Database error: ..." carrying the
    failure's text, and leaves the collection as it was, so that listing and
    fetching by id answer exactly as before the call. *)
Theorem upload_rollback (cfg : Config) (o : Oracle) (file : UploadFile) (ct : string)
    (t : string) (a al g c : option string) (w w1 w2 : World) (size : Z) (e : Exn) :
  file_content_type file = Some ct ->
  is_audio (Some ct) = true ->
  save_file o file (unique_name (urandom16 o) (file_filename file)) w = (Return size, w1) ->
  create_record cfg o file ct (unique_name (urandom16 o) (file_filename file))
                size t a al g c w1 = (Raise e, w2) ->
  exists w',
    upload_track cfg o file t a al g c w
    = (Raise (HTTPException 500 ("Database error: " +:+ str_exn e)), w') /\
    uploads w1 !! unique_name (urandom16 o) (file_filename file) = Some (file_body file) /\
    match remove_error o with
    | None =>
        uploads w' = delete (unique_name (urandom16 o) (file_filename file)) (uploads w) /\
        uploads w' !! unique_name (urandom16 o) (file_filename file) = None
    | Some _ => uploads w' = uploads w1
    end /\
    db w' = db w /\
    (forall limit, fst (list_tracks cfg limit w') = fst (list_tracks cfg limit w)) /\
    (forall track_id, fst (get_track cfg track_id w') = fst (get_track cfg track_id w)).
Proof.
  intros Hct Haudio Hsave Hrec.
  set (dest := unique_name (urandom16 o) (file_filename file)) in *.
  pose proof (create_record_Raise _ _ _ _ _ _ _ _ _ _ _ _ _ _ Hrec) as ->.
  pose proof (save_file_Return _ _ _ _ _ _ Hsave) as (Hread & Hwrite & Hsize & Hw1).
  assert (Hblob : uploads w1 !! dest = Some (file_body file)).
  { rewrite Hw1. simpl. apply lookup_insert_eq. }
  assert (Hstore1 : store w1 = store w) by now rewrite Hw1.
  assert (Hreads : forall w', store w' = store w ->
            db w' = db w /\
            (forall limit, fst (list_tracks cfg limit w') = fst (list_tracks cfg limit w)) /\
            (forall track_id, fst (get_track cfg track_id w') = fst (get_track cfg track_id w))).
  { intros w' Hst. unfold db, list_tracks, get_track. rewrite Hst.
    split; [reflexivity|]. split.
    - intros limit. now destruct (store w).
    - intros track_id. destruct (store w); [reflexivity | |];
        (destruct (ObjectId_binary track_id); [|reflexivity]); [reflexivity|].
      now destruct (List.find _ _). }
  unfold upload_track. rewrite Hct, Haudio. cbn [negb]. fold dest.
  unfold mbind at 1, M_bind, bind. rewrite Hsave.
  unfold mbind at 1, M_bind, bind, try_except. rewrite Hrec.
  unfold rollback, mbind, M_bind, bind, try_except, os_remove, raise, mret, M_ret, ret.
  destruct (remove_error o) as [msg|].
  - exists w1. split; [reflexivity|]. split; [exact Hblob|].
    split; [reflexivity|]. now apply Hreads.
  - rewrite Hblob. eexists. split; [reflexivity|]. split; [reflexivity|].
    split; [|now apply Hreads].
    simpl. split; [|apply lookup_delete_eq].
    rewrite Hw1. simpl. apply delete_insert_eq.
Qed.

Lemma upload_rollback_witness :
  exists w',
    upload_track cfg0 (oracle_insert_fails 7) song "T" None None None None world0
    = (Raise (HTTPException 500 "Database error: connection refused"), w') /\
    uploads w' = ∅ /\ db w' = Some [].
Proof.
  destruct (upload_rollback cfg0 (oracle_insert_fails 7) song "audio/mpeg" "T"
              None None None None world0 _ _ _ (Exception "connection refused")
              eq_refl eq_refl eq_refl eq_refl)
    as (w' & Hrun & _ & Hup & Hdb & _).
  exists w'. split; [exact Hrun|]. split; [|exact Hdb].
  simpl in Hup. destruct Hup as [-> _]. apply delete_empty.
Defined.

(** C8.  For every upload that succeeds, the [file_size] returned in the
    response and the one stored in the inserted Track both equal the number
    of bytes of the uploaded content, which are exactly the bytes written
    under the storage name and served back by GET /media/<name>; the size
    the client declared plays no part. *)
Theorem upload_file_size (cfg : Config) (o : Oracle) (file : UploadFile)
    (t : string) (a al g c : option string) (w w' : World) (resp : JObject) :
  upload_track cfg o file t a al g c w = (Return resp, w') ->
  dict_get "file_size" resp = Some (JInt (Z.of_nat (length (file_body file)))) /\
  uploads w' !! unique_name (urandom16 o) (file_filename file) = Some (file_body file) /\
  (exists docs d,
      db w' = Some (docs ++ [d]) /\
      filename (doc_track d) = unique_name (urandom16 o) (file_filename file) /\
      file_size (doc_track d) = Z.of_nat (length (file_body file))) /\
  (exists r,
      serve_media (unique_name (urandom16 o) (file_filename file)) w' = (Return r, w') /\
      body r = file_body file).
Proof.
  intros H.
  apply upload_track_Return in H
    as (ct & track & oid & docs & _ & _ & _ & _ & _ & _ & Htrack & -> & Hup & Hdb & _).
  apply Track_new_fields in Htrack as (_ & _ & _ & _ & Hfn & _ & _ & Hsize & _).
  assert (Hblob : uploads w' !! unique_name (urandom16 o) (file_filename file)
                  = Some (file_body file)).
  { rewrite Hup. apply lookup_insert_eq. }
  split; [|split; [exact Hblob | split]].
  - unfold upload_response, dict_get. simpl. now rewrite Hsize.
  - exists docs, (mkDoc oid (now_insert o) track). auto.
  - unfold serve_media. rewrite Hblob, (db_Some _ _ Hdb). eexists. split; reflexivity.
Qed.

Lemma upload_file_size_witness :
  dict_get "file_size"
    [ ("_id", JStr "000000000000000000000001"); ("title", JStr "T");
      ("artist", JNull); ("album", JNull); ("genre", JNull); ("cover_url", JNull);
      ("filename", JStr "00000000000040008000000000000007.mp3");
      ("original_filename", JStr "song.mp3"); ("content_type", JStr "audio/mpeg");
      ("file_size", JInt 3);
      ("media_url", JStr "/media/00000000000040008000000000000007.mp3");
      ("created_at", JIsoTime 101) ]
  = Some (JInt 3).
Proof.
  exact (proj1 (upload_file_size cfg0 (oracle_ok 7 1 100) song "T" None None None None
                  world0 _ _ eq_refl)).
Defined.

(** The response of a concrete successful upload has no [id] key; the
    identifier is under [_id]. *)
Lemma upload_response_id_key_counterexample :
  exists resp w',
    upload_track cfg0 (oracle_ok 7 1 100) song "T" None None None None world0
    = (Return resp, w') /\
    dict_get "id" resp = None /\
    dict_get "_id" resp = Some (JStr "000000000000000000000001").
Proof. eexists _, _. split; [exact eq_refl|]. split; reflexivity. Qed.

(** C3 (as amended).  For every successful upload the response is an
    object with exactly the keys [_id], [title], [artist], [album], [genre],
    [cover_url], [filename], [original_filename], [content_type],
    [file_size], [media_url], [created_at], in this order: the identifier of
    the inserted document under [_id], the fields of the validated Track,
    the media URL built from the storage name, and the time the response was
    built. *)
Theorem upload_response_shape (cfg : Config) (o : Oracle) (file : UploadFile)
    (t : string) (a al g c : option string) (w w' : World) (resp : JObject) :
  upload_track cfg o file t a al g c w = (Return resp, w') ->
  dict_keys resp =
    ["_id"; "title"; "artist"; "album"; "genre"; "cover_url"; "filename";
     "original_filename"; "content_type"; "file_size"; "media_url"; "created_at"] /\
  exists ct track oid docs,
    file_content_type file = Some ct /\
    db w' = Some (docs ++ [mkDoc oid (now_insert o) track]) /\
    resp =
      [ ("_id", JStr (str_ObjectId oid));
        ("title", JStr t);
        ("artist", JOpt a);
        ("album", JOpt al);
        ("genre", JOpt g);
        ("cover_url", JOpt (cover_url track));
        ("filename", JStr (unique_name (urandom16 o) (file_filename file)));
        ("original_filename", JStr (file_filename file));
        ("content_type", JStr ct);
        ("file_size", JInt (Z.of_nat (length (file_body file))));
        ("media_url", JStr (build_media_url (PUBLIC_BACKEND_URL cfg)
                              (unique_name (urandom16 o) (file_filename file))));
        ("created_at", JIsoTime (now_response o)) ].
Proof.
  intros H.
  apply upload_track_Return in H
    as (ct & track & oid & docs & Hct & _ & _ & _ & _ & _ & Htrack & -> & _ & Hdb & _).
  split; [reflexivity|].
  exists ct, track, oid, docs. split; [exact Hct|]. split; [exact Hdb|].
  apply Track_new_fields in Htrack
    as (Ht & Ha & Hal & Hg & Hfn & Horig & Hc & Hsize & _).
  unfold upload_response. now rewrite Ht, Ha, Hal, Hg, Hfn, Horig, Hc, Hsize.
Qed.

Lemma upload_response_shape_witness :
  dict_keys
    [ ("_id", JStr "000000000000000000000001"); ("title", JStr "T");
      ("artist", JNull); ("album", JNull); ("genre", JNull); ("cover_url", JNull);
      ("filename", JStr "00000000000040008000000000000007.mp3");
      ("original_filename", JStr "song.mp3"); ("content_type", JStr "audio/mpeg");
      ("file_size", JInt 3);
      ("media_url", JStr "/media/00000000000040008000000000000007.mp3");
      ("created_at", JIsoTime 101) ] =
    ["_id"; "title"; "artist"; "album"; "genre"; "cover_url"; "filename";
     "original_filename"; "content_type"; "file_size"; "media_url"; "created_at"].
Proof.
  exact (proj1 (upload_response_shape cfg0 (oracle_ok 7 1 100) song "T" None None None None
                  world0 _ _ eq_refl)).
Defined.

(** ** The read endpoints *)

(** *** Identifiers as text *)

Lemma is_hex_value (a : ascii) :
  is_hex a = true -> is_space a = false /\ exists v, hex_value a = Some v.
Proof.
  unfold is_hex, is_space. destruct (hex_value a) as [v|] eqn:Hv; [|discriminate].
  intros _. split; [|eauto].
  unfold hex_value in Hv. cbv zeta in Hv |- *.
  set (n := Z.of_nat (nat_of_ascii a)) in *.
  destruct (Z.leb_spec 48 n), (Z.leb_spec n 57), (Z.leb_spec 97 n), (Z.leb_spec n 102),
           (Z.leb_spec 65 n), (Z.leb_spec n 70); cbn in Hv; try discriminate;
    destruct (Z.leb_spec 9 n), (Z.leb_spec n 13), (Z.eqb_spec n 32); cbn; try reflexivity; lia.
Qed.

Lemma is_lower_hex_is_hex (a : ascii) : is_lower_hex a = true -> is_hex a = true.
Proof.
  unfold is_lower_hex, is_hex, hex_value. cbv zeta.
  set (n := Z.of_nat (nat_of_ascii a)).
  destruct ((48 <=? n) && (n <=? 57)); [reflexivity|].
  destruct ((97 <=? n) && (n <=? 102)); [reflexivity | discriminate].
Qed.

Lemma str_all_impl (p q : ascii -> bool) (s : string) :
  (forall a, p a = true -> q a = true) -> str_all p s = true -> str_all q s = true.
Proof.
  intros Hpq. induction s as [|a s IH]; cbn; [reflexivity|].
  intros H. apply andb_true_iff in H as [Ha Hs]. now rewrite (Hpq a Ha), IH.
Qed.


(** On digits alone [bytes.fromhex] reads one byte per pair, and the bytes
    are worth what the digits are. *)
Lemma bytes_fromhex_digits (k : nat) (s : string) :
  String.length s = (2 * k)%nat -> str_all is_hex s = true ->
  exists bs, bytes_fromhex s = Some bs /\ length bs = k /\
             forall acc, hex_parse s acc = Some (int_from_bytes bs acc).
Proof.
  revert s; induction k as [|k IH]; intros s Hlen Hhex.
  - destruct s; [|discriminate]. exists []. auto.
  - destruct s as [|a [|b s]]; try (cbn in Hlen; lia).
    cbn [str_all] in Hhex. apply andb_true_iff in Hhex as [Ha Hhex].
    apply andb_true_iff in Hhex as [Hb Hs].
    destruct (is_hex_value a Ha) as (Hsp & top & Htop).
    destruct (is_hex_value b Hb) as (_ & bot & Hbot).
    destruct (IH s ltac:(cbn in Hlen; lia) Hs) as (bs & Hbs & Hk & Hval).
    exists ((16 * top + bot) :: bs). cbn [bytes_fromhex hex_parse].
    rewrite Hsp, Htop, Hbot, Hbs. split; [reflexivity|]. split; [cbn; lia|].
    intros acc. rewrite Hval. unfold int_from_bytes. cbn [fold_left]. do 2 f_equal. lia.
Qed.

(** A printed id parses back to itself. *)
Lemma ObjectId_parse_print (oid : ObjectId) :
  0 <= oid < 2 ^ 96 -> ObjectId_of_str (str_ObjectId oid) = Some oid.
Proof.
  intros Hr. unfold ObjectId_of_str, ObjectId_binary, str_ObjectId.
  rewrite hex_fixed_length. cbn [Nat.eqb].
  destruct (bytes_fromhex_digits 12 (hex_fixed 24 oid)) as (bs & -> & Hlen & Hval).
  - apply hex_fixed_length.
  - apply (str_all_impl is_lower_hex); [apply is_lower_hex_is_hex | apply hex_fixed_lower].
  - rewrite Hlen. cbn [Nat.eqb]. f_equal.
    specialize (Hval 0). rewrite hex_parse_hex_fixed in Hval. injection Hval as <-.
    change (16 ^ Z.of_nat 24) with (2 ^ 96). rewrite Z.mod_small; lia.
Qed.

(** A stored id is the parsed binary exactly when it is the id the string
    denotes. *)
Lemma same_id_spec (track_id : string) (binary : list Z) (stored : ObjectId) :
  ObjectId_binary track_id = Some binary ->
  same_id stored binary = true <-> ObjectId_of_str track_id = Some stored.
Proof.
  intros Hb. unfold same_id, ObjectId_of_str. rewrite Hb.
  destruct (Nat.eqb (length binary) 12); cbn [andb].
  - rewrite Z.eqb_eq. split; [now intros -> | now intros [= ->]].
  - split; discriminate.
Qed.

Lemma find_none_by_id (track_id : string) (binary : list Z) (docs : list Doc) :
  ObjectId_binary track_id = Some binary ->
  (forall d, In d docs -> ObjectId_of_str track_id <> Some (_id d)) ->
  List.find (fun d => same_id (_id d) binary) docs = None.
Proof.
  intros Hb. induction docs as [|d docs IH]; intros H; cbn; [reflexivity|].
  destruct (same_id (_id d) binary) eqn:Hsame.
  - exfalso. apply (H d); [now left|]. now apply (same_id_spec _ _ _ Hb).
  - apply IH. intros d' Hd'. apply H. now right.
Qed.

(** Get-by-id on an answering store, for a string that denotes an id. *)
Lemma get_track_Connected (cfg : Config) (track_id : string) (docs : list Doc) (w : World)
    (oid : ObjectId) :
  store w = Connected docs ->
  ObjectId_of_str track_id = Some oid ->
  get_track cfg track_id w =
  match List.find (fun d => _id d =? oid) docs with
  | None => (Raise (HTTPException 404 "Track not found"), w)
  | Some doc => (Return (to_item cfg doc), w)
  end.
Proof.
  intros Hst Hoid. unfold get_track. rewrite Hst.
  unfold ObjectId_of_str in Hoid.
  destruct (ObjectId_binary track_id) as [binary|]; [|discriminate].
  unfold same_id.
  destruct (Nat.eqb (length binary) 12); [|discriminate].
  injection Hoid as <-. reflexivity.
Qed.

(** A string that denotes no stored id fetches nothing. *)
Lemma get_track_no_id (cfg : Config) (track_id : string) (docs : list Doc) (w : World)
    (item : TrackItem) :
  store w = Connected docs ->
  ObjectId_of_str track_id = None ->
  get_track cfg track_id w <> (Return item, w).
Proof.
  intros Hst Hoid. unfold get_track. rewrite Hst.
  destruct (ObjectId_binary track_id) as [binary|] eqn:Hb; [|discriminate].
  rewrite (find_none_by_id track_id binary docs Hb); [discriminate|].
  intros d _. now rewrite Hoid.
Qed.




(** With the blob on disk and its record stored, a configured store that
    cannot be reached makes the request fail: what [find_one] raises is not
    caught. *)
Lemma serve_media_unreachable_counterexample :
  uploads world_unreachable !! "a.mp3" = Some [Byte.x49; Byte.x44; Byte.x33] /\
  serve_media "a.mp3" world_unreachable
  = (Raise (Exception "connection refused"), world_unreachable).
Proof. split; reflexivity. Qed.

(** C10 (as amended).  For every stored blob the serve-media endpoint
    answers with the file's bytes when the metadata store is not configured
    and whenever the store answers the lookup; when the store is not
    configured, or answers and holds no record for the filename, it leaves
    the content type unspecified ([media_type=None]) instead of failing. *)
Theorem serve_media_without_metadata (fname : string) (bytes : list Byte.byte) (w : World) :
  uploads w !! fname = Some bytes ->
  (store w = NotConfigured ->
   serve_media fname w = (Return (mkFileResponse fname None bytes), w)) /\
  (forall docs, db w = Some docs ->
     (exists r, serve_media fname w = (Return r, w) /\ path r = fname /\ body r = bytes) /\
     ((forall d, In d docs -> filename (doc_track d) <> fname) ->
      serve_media fname w = (Return (mkFileResponse fname None bytes), w))).
Proof.
  intros Hblob. unfold serve_media. rewrite Hblob. split.
  - now intros ->.
  - intros docs Hdb. rewrite (db_Some _ _ Hdb). split.
    + eexists. split; [reflexivity|]. split; reflexivity.
    + intros Habsent.
      assert (Hfind : List.find (fun d => String.eqb (filename (doc_track d)) fname) docs = None).
      { clear -Habsent. induction docs as [|d docs IH]; simpl; [reflexivity|].
        destruct (String.eqb_spec (filename (doc_track d)) fname) as [Heq|_].
        - exfalso. apply (Habsent d); [now left | exact Heq].
        - apply IH. intros d' Hd'. apply Habsent. now right. }
      now rewrite Hfind.
Qed.

Lemma serve_media_without_metadata_witness :
  serve_media "a.mp3" world_no_db
  = (Return (mkFileResponse "a.mp3" None [Byte.x49; Byte.x44; Byte.x33]), world_no_db).
Proof.
  apply (serve_media_without_metadata "a.mp3" _ world_no_db eq_refl).
  reflexivity.
Defined.

(** *** Listing *)

Lemma insert_desc_In (d x : Doc) (l : list Doc) :
  In x (insert_desc d l) <-> x = d \/ In x l.
Proof.
  induction l as [|y l IH]; simpl; [intuition|].
  destruct (created_at y <=? created_at d); simpl; [intuition|].
  rewrite IH. intuition.
Qed.

Lemma insert_desc_sorted (d : Doc) (l : list Doc) :
  newest_first l -> newest_first (insert_desc d l).
Proof.
  unfold newest_first.
  induction 1 as [|y l Hl IH Hy]; simpl.
  - repeat constructor.
  - destruct (Z.leb_spec (created_at y) (created_at d)) as [Hle|Hgt].
    + constructor; [now constructor|].
      constructor; [exact Hle|].
      rewrite List.Forall_forall in Hy. apply List.Forall_forall.
      intros z Hz. specialize (Hy z Hz). simpl in Hy. lia.
    + constructor; [exact IH|].
      apply List.Forall_forall. intros z Hz. apply insert_desc_In in Hz as [->|Hz]; [lia|].
      rewrite List.Forall_forall in Hy. now apply Hy.
Qed.

Lemma sort_desc_sorted (docs : list Doc) : newest_first (sort_desc docs).
Proof.
  induction docs as [|d docs IH]; simpl; [constructor|].
  now apply insert_desc_sorted.
Qed.

Lemma sort_desc_In (x : Doc) (docs : list Doc) :
  In x (sort_desc docs) <-> In x docs.
Proof.
  induction docs as [|d docs IH]; simpl; [tauto|].
  rewrite insert_desc_In, IH. intuition.
Qed.

Lemma sort_desc_length (docs : list Doc) : length (sort_desc docs) = length docs.
Proof.
  induction docs as [|d docs IH]; simpl; [reflexivity|].
  rewrite <- IH. generalize (sort_desc docs) as l.
  induction l as [|y l IHl]; simpl; [reflexivity|].
  destruct (created_at y <=? created_at d); simpl; [reflexivity | now rewrite IHl].
Qed.

Lemma insert_desc_oldest (d : Doc) (l : list Doc) :
  Forall (fun y => created_at d < created_at y) l -> insert_desc d l = l ++ [d].
Proof.
  induction 1 as [|y l Hy Hl IH]; simpl; [reflexivity|].
  destruct (Z.leb_spec (created_at y) (created_at d)); [lia|].
  now rewrite IH.
Qed.

(** When the natural order is the creation order, sorting newest first
    reverses it. *)
Lemma sort_desc_rev (docs : list Doc) :
  created_in_order docs -> sort_desc docs = rev docs.
Proof.
  unfold created_in_order.
  induction 1 as [|d docs Hdocs IH Hd]; simpl; [reflexivity|].
  rewrite IH. apply insert_desc_oldest.
  apply List.Forall_forall. intros y Hy. apply in_rev in Hy.
  rewrite List.Forall_forall in Hd. now apply Hd.
Qed.

Lemma newest_first_firstn (n : nat) (l : list Doc) :
  newest_first l -> newest_first (firstn n l).
Proof.
  unfold newest_first. intros H; revert n.
  induction H as [|y l Hl IH Hy]; intros [|n]; simpl; try constructor.
  - apply IH.
  - apply List.Forall_forall. intros z Hz.
    rewrite List.Forall_forall in Hy. apply Hy.
    revert Hz. clear. revert n. induction l as [|a l IHl]; intros [|n]; simpl; try tauto.
    intros [->|H]; [now left | right; eauto].
Qed.

Lemma map_item_doc (cfg : Config) (l : list Doc) :
  map item_doc (map (to_item cfg) l) = l.
Proof. induction l as [|d l IH]; simpl; [reflexivity | now rewrite IH]. Qed.

(** Inserting stamps the document and appends it to the collection. *)
Lemma create_document_appends (o : Oracle) (data : Track) (w w' : World) (id : string) :
  create_document o "track" data w = (Return id, w') ->
  exists docs oid,
    db w = Some docs /\ insert_outcome o = inr oid /\ id = str_ObjectId oid /\
    db w' = Some (docs ++ [mkDoc oid (now_insert o) data]).
Proof.
  unfold create_document, db.
  destruct (store w) as [|error docs|docs]; [discriminate | discriminate |].
  destruct (insert_outcome o) as [msg|oid]; [discriminate|].
  intros [= <- <-]. exists docs, oid. auto.
Qed.

(** With [limit=0] the guard [if limit:] is false and everything stored is
    returned: one track for a limit of zero. *)
Lemma list_tracks_limit_zero_counterexample :
  exists items,
    list_tracks cfg0 (Some 0) world_abc = (Return items, world_abc) /\
    length items = 3%nat /\
    ~ (Z.of_nat (length items) <= 0).
Proof. eexists. split; [exact eq_refl|]. split; [reflexivity|]. simpl. lia. Qed.

(** C2 (as amended).  For every stored collection of tracks and every
    supplied positive limit, the list operation returns the tracks sorted
    newest first by their creation stamp and yields at most [limit] of them,
    namely the first [limit] of the sorted collection; when the stamps grow
    strictly with the order of insertion this is the reverse of that order
    cut at [limit], and in particular a collection made by inserting A, then
    B, then C, listed with limit 2, gives exactly [C, B].  A limit of 0 is
    treated as no limit: everything stored is returned. *)
Theorem list_tracks_newest_first (cfg : Config) (docs : list Doc) (w : World) (n : Z) :
  db w = Some docs ->
  0 < n ->
  exists items,
    list_tracks cfg (Some n) w = (Return items, w) /\
    Z.of_nat (length items) <= n /\
    items = map (to_item cfg) (firstn (Z.to_nat n) (sort_desc docs)) /\
    newest_first (map item_doc items) /\
    (forall d, In d (map item_doc items) -> In d docs) /\
    (created_in_order docs ->
     map item_doc items = firstn (Z.to_nat n) (rev docs)) /\
    (forall A B C, docs = [A; B; C] -> created_in_order docs -> n = 2 ->
                   items = [to_item cfg C; to_item cfg B]) /\
    list_tracks cfg (Some 0) w = (Return (map (to_item cfg) (sort_desc docs)), w).
Proof.
  intros Hdb Hn. unfold list_tracks. rewrite (db_Some _ _ Hdb). unfold cursor_limit.
  destruct (Z.eqb_spec n 0) as [->|_]; [lia|].
  replace (Z.abs_nat n) with (Z.to_nat n) by lia.
  eexists. split; [reflexivity|].
  assert (Hrev : created_in_order docs ->
                 firstn (Z.to_nat n) (sort_desc docs) = firstn (Z.to_nat n) (rev docs))
    by (intros H; now rewrite sort_desc_rev).
  rewrite map_item_doc.
  split; [|split; [reflexivity|split; [|split; [|split; [exact Hrev|split]]]]].
  - rewrite length_map, length_firstn. lia.
  - apply newest_first_firstn, sort_desc_sorted.
  - intros d Hd. apply sort_desc_In.
    revert Hd. generalize (sort_desc docs) as l. generalize (Z.to_nat n) as k.
    clear. induction k as [|k IH]; intros [|a l]; simpl; try tauto.
    intros [->|H]; [now left | right; eauto].
  - intros A B C -> Hord ->. now rewrite (Hrev Hord).
  - reflexivity.
Qed.

Lemma list_tracks_newest_first_witness :
  list_tracks cfg0 (Some 2) world_abc
  = (Return [to_item cfg0 (mkDoc 3 30 (track_of "C"));
             to_item cfg0 (mkDoc 2 20 (track_of "B"))], world_abc).
Proof.
  assert (Hord : created_in_order
                   [mkDoc 1 10 (track_of "A"); mkDoc 2 20 (track_of "B");
                    mkDoc 3 30 (track_of "C")]).
  { repeat constructor; simpl; lia. }
  destruct (list_tracks_newest_first cfg0 _ world_abc 2 eq_refl eq_refl)
    as (items & Hrun & _ & _ & _ & _ & _ & Habc & _).
  rewrite Hrun. f_equal. f_equal.
  exact (Habc _ _ _ eq_refl Hord eq_refl).
Defined.

(** * Further properties of the handlers *)

(** ** More on storage names *)

Lemma append_inj_length (a b c d : string) :
  String.length a = String.length b -> a +:+ c = b +:+ d -> a = b /\ c = d.
Proof.
  revert b; induction a as [|x a IH]; intros [|y b] Hlen H; try discriminate.
  - now split.
  - rewrite !append_String in H. injection H as -> H. injection Hlen as Hlen.
    destruct (IH b Hlen H) as [-> ->]. now split.
Qed.

Lemma rindex_drop (c : ascii) (s : string) (k : nat) :
  rindex c s = Some k -> rindex c (PyStr.drop k s) = Some O.
Proof.
  revert k; induction s as [|a s IH]; intros k; [discriminate|].
  simpl rindex. destruct (rindex c s) as [j|] eqn:Ej.
  - intros [= <-]. simpl. now apply IH.
  - destruct (Ascii.eqb a c) eqn:Ea; [|discriminate].
    intros [= <-]. simpl. now rewrite Ej, Ea.
Qed.

(** An extension is empty or starts at its only dot. *)
Lemma splitext_ext_shape (p : string) :
  snd (os_path_splitext p) = EmptyString \/
  rindex "." (snd (os_path_splitext p)) = Some O.
Proof.
  rewrite splitext_ext_structural. unfold extension_of.
  rewrite ext_from_last_dot_rindex.
  destruct (rindex "." (lstrip_dots (basename p))) as [k|] eqn:E; [|now left].
  right. now apply rindex_drop.
Qed.

Lemma uuid4_hex_no_char (rnd : Z) (c : ascii) :
  is_lower_hex c = false -> rindex c (uuid4_hex rnd) = None.
Proof.
  intros Hc. apply rindex_contains_false.
  apply (str_all_not_contains is_lower_hex); [exact Hc | apply hex_fixed_lower].
Qed.

Lemma uuid4_hex_head (rnd : Z) :
  exists a rest, uuid4_hex rnd = String a rest /\ is_lower_hex a = true.
Proof.
  unfold uuid4_hex. cbn [hex_fixed].
  eexists _, _. split; [reflexivity|]. apply hex_digit_lower.
Qed.

(** X2.  Splitting a storage name gives back its two parts: the token as
    root and the original filename's extension as extension, so the file on
    disk keeps the extension [os.path.splitext] saw in the upload's name. *)
Theorem unique_name_splitext (rnd : Z) (original : string) :
  os_path_splitext (unique_name rnd original)
  = (uuid4_hex rnd, snd (os_path_splitext original)).
Proof.
  unfold unique_name.
  generalize (splitext_ext_shape original) (splitext_ext_no_sep original).
  generalize (snd (os_path_splitext original)) as ext. intros ext Hshape Hsep.
  assert (Hsnd : snd (os_path_splitext (uuid4_hex rnd +:+ ext)) = ext).
  { rewrite <- (append_Empty (uuid4_hex rnd +:+ ext)) at 1.
    rewrite splitext_decomposed.
    - assert (Hl : lstrip_dots (uuid4_hex rnd +:+ ext) = uuid4_hex rnd +:+ ext).
      { destruct (uuid4_hex_head rnd) as (a & rest & -> & Ha).
        rewrite append_String. cbn [lstrip_dots].
        destruct (Ascii.eqb a ".") eqn:E; [|reflexivity].
        apply Ascii.eqb_eq in E. subst a. discriminate. }
      rewrite Hl, ext_from_last_dot_rindex, rindex_append.
      destruct Hshape as [->| ->].
      + cbn [rindex]. now rewrite uuid4_hex_no_char.
      + apply drop_append_r.
    - rewrite contains_append, Hsep, orb_false_r.
      apply (str_all_not_contains is_lower_hex); [reflexivity | apply hex_fixed_lower].
    - reflexivity. }
  pose proof (splitext_join (uuid4_hex rnd +:+ ext)) as Hjoin.
  rewrite Hsnd in Hjoin. apply append_inv_tail in Hjoin.
  rewrite (surjective_pairing (os_path_splitext _)). now rewrite Hjoin, Hsnd.
Qed.

(** X3.  Two uploads get the same storage name only if [uuid4] produced the
    same 128-bit value for both (and their extensions agree): nothing of the
    uploader's name but the extension takes part in the name. *)
Theorem unique_name_collision (r1 r2 : Z) (o1 o2 : string) :
  unique_name r1 o1 = unique_name r2 o2 <->
  uuid4_int r1 = uuid4_int r2 /\
  snd (os_path_splitext o1) = snd (os_path_splitext o2).
Proof.
  unfold unique_name. split.
  - intros H. apply append_inj_length in H as [Ht He].
    + split; [|exact He].
      apply (hex_fixed_inj 32); [apply uuid4_int_range | apply uuid4_int_range | exact Ht].
    + unfold uuid4_hex. now rewrite !hex_fixed_length.
  - intros [Hi He]. unfold uuid4_hex. now rewrite Hi, He.
Qed.

(** X4.  Distinct storage names have distinct media URLs, whatever the
    configured base: the URL identifies the file. *)
Theorem build_media_url_inj (base : option string) (f1 f2 : string) :
  build_media_url base f1 = build_media_url base f2 <-> f1 = f2.
Proof.
  split; [|now intros ->].
  unfold build_media_url.
  destruct base as [b|]; [destruct (PyStr.truthy b)|]; intros H.
  - apply (inj (String.app b)) in H. now apply (inj (String.app "/media/")) in H.
  - now apply (inj (String.app "/media/")) in H.
  - now apply (inj (String.app "/media/")) in H.
Qed.

(** ** More on the upload handler *)

(** The handler once the content type has been accepted. *)
Lemma upload_track_audio (cfg : Config) (o : Oracle) (file : UploadFile) (ct : string)
    (t : string) (a al g c : option string) (w : World) :
  file_content_type file = Some ct -> is_audio (Some ct) = true ->
  upload_track cfg o file t a al g c w =
  match save_file o file (unique_name (urandom16 o) (file_filename file)) w with
  | (Raise e, w1) => (Raise e, w1)
  | (Return size, w1) =>
      match create_record cfg o file ct (unique_name (urandom16 o) (file_filename file))
                          size t a al g c w1 with
      | (Return r, w2) => (Return (upload_response cfg o (fst r) (snd r)), w2)
      | (Raise e, w2) => rollback o (unique_name (urandom16 o) (file_filename file)) e w2
      end
  end.
Proof.
  intros Hct Haudio. unfold upload_track. rewrite Hct, Haudio. cbn [negb].
  unfold mbind, M_bind, bind, try_except, mret, M_ret, ret.
  destruct (save_file _ _ _ _) as [[e|size] w1]; [reflexivity|].
  destruct (create_record _ _ _ _ _ _ _ _ _ _ _ _) as [[e|r] w2]; [|reflexivity].
  unfold rollback, mbind, M_bind, bind.
  now destruct (try_except _ _ _) as [[?|?] ?].
Qed.

(** What saving does, by what the environment decides. *)
Lemma save_file_cases (o : Oracle) (file : UploadFile) (dest : string) (w : World) :
  save_file o file dest w =
  match read_error o with
  | Some msg => (Raise (HTTPException 500 ("Failed to save file: " +:+ msg)), w)
  | None =>
      let w0 := log (FileRead (length (file_body file))) w in
      match write_outcome o with
      | Written =>
          (Return (Z.of_nat (length (file_body file))),
           log (BlobWrite dest (length (file_body file)))
               (set_uploads (<[dest := file_body file]> (uploads w)) w0))
      | OpenFailed msg =>
          (Raise (HTTPException 500 ("Failed to save file: " +:+ msg)), w0)
      | WriteFailed msg partial =>
          (Raise (HTTPException 500 ("Failed to save file: " +:+ msg)),
           log (BlobWrite dest (length (firstn partial (file_body file))))
               (set_uploads (<[dest := firstn partial (file_body file)]> (uploads w)) w0))
      end
  end.
Proof.
  unfold save_file, file_read, write_file. run_m.
  destruct (read_error o); [reflexivity|].
  destruct (write_outcome o); reflexivity.
Qed.

(** What the rollback does: the exception it raises and the world it leaves. *)
Lemma rollback_cases (A : Type) (o : Oracle) (dest : string) (e : Exn) (w : World) :
  @rollback A o dest e w =
  (Raise (HTTPException 500 ("Database error: " +:+ str_exn e)),
   match remove_error o, uploads w !! dest with
   | None, Some _ => log (BlobRemove dest) (set_uploads (delete dest (uploads w)) w)
   | _, _ => w
   end).
Proof.
  unfold rollback, os_remove. run_m.
  destruct (remove_error o); [reflexivity|].
  destruct (uploads w !! dest); reflexivity.
Qed.

(** X5.  Whatever the environment does, an upload ends in a response or in
    an [HTTPException]: 400 with the content-type message, or 500 with the
    text of the failure after "Failed to save file: " or "Database error: ".
    No other exception escapes the handler. *)
Theorem upload_track_outcomes (cfg : Config) (o : Oracle) (file : UploadFile)
    (t : string) (a al g c : option string) (w : World) :
  match fst (upload_track cfg o file t a al g c w) with
  | Return resp => dict_get "_id" resp <> None
  | Raise (HTTPException code detail) =>
      (code = 400 /\ detail = "Only audio files are allowed") \/
      (code = 500 /\ exists msg, detail = "Failed to save file: " +:+ msg \/
                                 detail = "Database error: " +:+ msg)
  | Raise (Exception _) => False
  end.
Proof.
  destruct (file_content_type file) as [ct|] eqn:Hct;
    [destruct (is_audio (Some ct)) eqn:Haudio|].
  - rewrite (upload_track_audio _ _ _ _ _ _ _ _ _ _ Hct Haudio), save_file_cases.
    generalize (unique_name (urandom16 o) (file_filename file)) as dest. intros dest.
    destruct (read_error o) as [msg|]; [right; eauto|].
    destruct (write_outcome o) as [|msg|msg k]; cbv beta iota zeta; [|right; eauto|right; eauto].
    destruct (create_record _ _ _ _ _ _ _ _ _ _ _ _) as [[e|r] w2].
    + rewrite rollback_cases. right. eauto.
    + discriminate.
  - unfold upload_track. rewrite Hct, Haudio. left. now split.
  - unfold upload_track. rewrite Hct. left. now split.
Qed.

(** X6.  When saving the upload fails the handler answers 500 "Failed to
    save file: ..." and never reaches the collection; it does not clean up
    either: if the write itself failed midway, the truncated file stays in
    the upload directory under the storage name. *)
Theorem upload_save_failure (cfg : Config) (o : Oracle) (file : UploadFile) (ct : string)
    (t : string) (a al g c : option string) (w : World) (msg : string) (partial : nat) :
  file_content_type file = Some ct -> is_audio (Some ct) = true ->
  read_error o = None ->
  write_outcome o = WriteFailed msg partial ->
  exists w',
    upload_track cfg o file t a al g c w
    = (Raise (HTTPException 500 ("Failed to save file: " +:+ msg)), w') /\
    db w' = db w /\
    uploads w' !! unique_name (urandom16 o) (file_filename file)
    = Some (firstn partial (file_body file)) /\
    (forall name, name <> unique_name (urandom16 o) (file_filename file) ->
                  uploads w' !! name = uploads w !! name).
Proof.
  intros Hct Haudio Hread Hwrite.
  rewrite (upload_track_audio _ _ _ _ _ _ _ _ _ _ Hct Haudio), save_file_cases.
  rewrite Hread, Hwrite. cbv beta iota zeta.
  eexists. split; [reflexivity|]. cbn [db uploads log set_uploads].
  split; [reflexivity|]. split; [apply lookup_insert_eq|].
  intros name Hne. now apply lookup_insert_ne.
Qed.

Lemma upload_save_failure_witness :
  exists w',
    upload_track cfg0 (oracle_write_fails 7) song "T" None None None None world0
    = (Raise (HTTPException 500 "Failed to save file: No space left on device"), w') /\
    db w' = Some [] /\
    uploads w' !! "00000000000040008000000000000007.mp3" = Some [Byte.x49; Byte.x44].
Proof.
  destruct (upload_save_failure cfg0 (oracle_write_fails 7) song "audio/mpeg" "T"
              None None None None world0 _ _ eq_refl eq_refl eq_refl eq_refl)
    as (w' & Hrun & Hdb & Hblob & _).
  exists w'. split; [exact Hrun|]. split; [exact Hdb | exact Hblob].
Defined.

(** X7.  A document is inserted only by an upload that succeeds, and then
    as the last of exactly three steps: the upload is read, the whole file
    is written, the document is inserted.  An upload that fails performs no
    insert. *)
Theorem upload_insert_last (cfg : Config) (o : Oracle) (file : UploadFile)
    (t : string) (a al g c : option string) (w : World) :
  exists steps,
    effects (snd (upload_track cfg o file t a al g c w)) = effects w ++ steps /\
    match fst (upload_track cfg o file t a al g c w) with
    | Return _ =>
        exists oid,
          steps = [FileRead (length (file_body file));
                   BlobWrite (unique_name (urandom16 o) (file_filename file))
                             (length (file_body file));
                   DocInsert oid]
    | Raise _ => forall oid, ~ In (DocInsert oid) steps
    end.
Proof.
  destruct (file_content_type file) as [ct|] eqn:Hct;
    [destruct (is_audio (Some ct)) eqn:Haudio|].
  - rewrite (upload_track_audio _ _ _ _ _ _ _ _ _ _ Hct Haudio), save_file_cases.
    generalize (unique_name (urandom16 o) (file_filename file)) as dest. intros dest.
    destruct (read_error o) as [msg|].
    { exists []. split; [now rewrite app_nil_r | intros oid []]. }
    destruct (write_outcome o) as [|msg|msg k]; cbv beta iota zeta.
    + destruct (create_record _ _ _ _ _ _ _ _ _ _ _ _) as [[e|r] w2] eqn:Hrec.
      * apply create_record_Raise in Hrec as ->. rewrite rollback_cases.
        cbn [fst snd uploads log set_uploads].
        destruct (remove_error o); [|rewrite lookup_insert_eq];
          cbn [effects log set_uploads]; rewrite <- !app_assoc;
          (eexists; split; [reflexivity|]);
          intros oid Hin; cbn in Hin; intuition discriminate.
      * apply create_record_Return in Hrec as (docs & oid & _ & _ & _ & _ & ->).
        cbn [fst snd effects log set_docs set_uploads]. rewrite <- !app_assoc.
        eexists. split; [reflexivity|]. exists oid. reflexivity.
    + cbn [fst snd effects log]. eexists. split; [reflexivity|].
      intros oid Hin; cbn in Hin; intuition discriminate.
    + cbn [fst snd effects log set_uploads]. rewrite <- !app_assoc.
      eexists. split; [reflexivity|].
      intros oid Hin; cbn in Hin; intuition discriminate.
  - unfold upload_track. rewrite Hct, Haudio. exists [].
    split; [cbn; now rewrite app_nil_r | intros oid []].
  - unfold upload_track. rewrite Hct. exists [].
    split; [cbn; now rewrite app_nil_r | intros oid []].
Qed.

(** ** How the handlers compose *)



Lemma find_app_last {A} (f : A -> bool) (l : list A) (x : A) :
  (forall y, In y l -> f y = false) -> f x = true ->
  List.find f (l ++ [x]) = Some x.
Proof.
  intros Hl Hx. induction l as [|y l IH]; cbn.
  - now rewrite Hx.
  - rewrite (Hl y) by now left. apply IH. intros z Hz. apply Hl. now right.
Qed.

(** X9.  After a successful upload the returned [_id] fetches the new
    track: get-by-id answers with the record just inserted, carrying the
    same id text, storage name and media URL as the upload response,
    provided the assigned id is a 96-bit value no stored record has. *)
Theorem upload_then_get (cfg : Config) (o : Oracle) (file : UploadFile)
    (t : string) (a al g c : option string) (w w' : World) (resp : JObject)
    (docs : list Doc) (oid : ObjectId) :
  upload_track cfg o file t a al g c w = (Return resp, w') ->
  db w = Some docs ->
  insert_outcome o = inr oid ->
  0 <= oid < 2 ^ 96 ->
  (forall d, In d docs -> _id d <> oid) ->
  exists item,
    get_track cfg (str_ObjectId oid) w' = (Return item, w') /\
    dict_get "_id" resp = Some (JStr (item_id item)) /\
    dict_get "filename" resp = Some (JStr (filename (doc_track (item_doc item)))) /\
    dict_get "media_url" resp = Some (JStr (media_url item)) /\
    filename (doc_track (item_doc item)) = unique_name (urandom16 o) (file_filename file) /\
    created_at (item_doc item) = now_insert o.
Proof.
  intros Hup Hdb Hins Hrange Hfresh.
  apply upload_track_Return in Hup
    as (ct & track & oid' & docs' & _ & _ & _ & _ & Hdb' & Hins' & Htrack & -> & _ & Hdbw' & _).
  rewrite Hdb in Hdb'. injection Hdb' as <-.
  rewrite Hins in Hins'. injection Hins' as <-.
  apply Track_new_fields in Htrack as (_ & _ & _ & _ & Hfn & _).
  rewrite (get_track_Connected cfg _ _ w' oid (db_Some _ _ Hdbw') (ObjectId_parse_print oid Hrange)).
  rewrite (find_app_last _ docs (mkDoc oid (now_insert o) track)).
  - eexists. split; [reflexivity|]. cbn. rewrite Hfn. auto.
  - intros d Hd. apply Z.eqb_neq. now apply Hfresh.
  - apply Z.eqb_refl.
Qed.

Lemma upload_then_get_witness :
  exists item,
    get_track cfg0 "000000000000000000000001" world_song = (Return item, world_song) /\
    filename (doc_track (item_doc item)) = "00000000000040008000000000000007.mp3".
Proof.
  assert (Hr : 0 <= 1 < 2 ^ 96) by (split; [lia | reflexivity]).
  destruct (upload_then_get cfg0 (oracle_ok 7 1 100) song "T" None None None None
              world0 world_song _ [] 1 eq_refl eq_refl eq_refl Hr (fun d (H : In d []) => match H with end))
    as (item & Hget & _ & _ & _ & Hfn & _).
  exists item. split; [exact Hget | exact Hfn].
Defined.

Lemma is_audio_truthy (ct : string) : is_audio (Some ct) = true -> PyStr.truthy ct = true.
Proof. unfold is_audio. intros H. now apply andb_true_iff in H as [H _]. Qed.

(** X10.  After a successful upload, GET /media/<storage name> serves the
    uploaded bytes with the content type the upload declared, provided no
    earlier record uses that storage name. *)
Theorem upload_then_serve (cfg : Config) (o : Oracle) (file : UploadFile)
    (t : string) (a al g c : option string) (w w' : World) (resp : JObject)
    (docs : list Doc) :
  upload_track cfg o file t a al g c w = (Return resp, w') ->
  db w = Some docs ->
  (forall d, In d docs ->
             filename (doc_track d) <> unique_name (urandom16 o) (file_filename file)) ->
  serve_media (unique_name (urandom16 o) (file_filename file)) w'
  = (Return (mkFileResponse (unique_name (urandom16 o) (file_filename file))
                            (file_content_type file) (file_body file)), w').
Proof.
  intros Hup Hdb Hfresh.
  apply upload_track_Return in Hup
    as (ct & track & oid & docs' & Hct & Haudio & _ & _ & Hdb' & _ & Htrack & _ & Hupl & Hdbw' & _).
  rewrite Hdb in Hdb'. injection Hdb' as <-.
  apply Track_new_fields in Htrack as (_ & _ & _ & _ & Hfn & _ & Hctype & _).
  revert Hfresh Hupl Hfn.
  generalize (unique_name (urandom16 o) (file_filename file)) as dest.
  intros dest Hfresh Hupl Hfn.
  unfold serve_media. rewrite Hupl, lookup_insert_eq, (db_Some _ _ Hdbw').
  rewrite (find_app_last _ docs (mkDoc oid (now_insert o) track)).
  - cbn. rewrite Hctype, (is_audio_truthy _ Haudio), Hct. reflexivity.
  - intros d Hd. apply String.eqb_neq. now apply Hfresh.
  - cbn. rewrite Hfn. apply String.eqb_refl.
Qed.

Lemma upload_then_serve_witness :
  serve_media "00000000000040008000000000000007.mp3" world_song
  = (Return (mkFileResponse "00000000000040008000000000000007.mp3" (Some "audio/mpeg")
                            [Byte.x49; Byte.x44; Byte.x33]), world_song).
Proof.
  exact (upload_then_serve cfg0 (oracle_ok 7 1 100) song "T" None None None None
           world0 world_song _ [] eq_refl eq_refl (fun d (H : In d []) => match H with end)).
Defined.

Lemma sort_desc_snoc_newest (docs : list Doc) (x : Doc) :
  (forall d, In d docs -> created_at d < created_at x) ->
  sort_desc (docs ++ [x]) = x :: sort_desc docs.
Proof.
  induction docs as [|d docs IH]; intros H; [reflexivity|].
  cbn [app sort_desc fold_right]. fold (sort_desc (docs ++ [x])).
  fold (sort_desc docs).
  rewrite IH by (intros z Hz; apply H; now right).
  cbn [insert_desc].
  destruct (Z.leb_spec (created_at x) (created_at d)) as [Hle|_]; [|reflexivity].
  specialize (H d (or_introl eq_refl)). lia.
Qed.

(** X11.  After a successful upload whose creation stamp is later than
    every stored one, the new track comes first in the listing, for an
    absent limit and for every limit that is not negative. *)
Theorem upload_then_list (cfg : Config) (o : Oracle) (file : UploadFile)
    (t : string) (a al g c : option string) (w w' : World) (resp : JObject)
    (docs : list Doc) (limit : option Z) :
  upload_track cfg o file t a al g c w = (Return resp, w') ->
  db w = Some docs ->
  (forall d, In d docs -> created_at d < now_insert o) ->
  match limit with Some n => 0 <= n | None => True end ->
  exists item rest,
    list_tracks cfg limit w' = (Return (item :: rest), w') /\
    dict_get "_id" resp = Some (JStr (item_id item)) /\
    dict_get "media_url" resp = Some (JStr (media_url item)) /\
    filename (doc_track (item_doc item)) = unique_name (urandom16 o) (file_filename file).
Proof.
  intros Hup Hdb Hnew Hlimit.
  apply upload_track_Return in Hup
    as (ct & track & oid & docs' & _ & _ & _ & _ & Hdb' & _ & Htrack & -> & _ & Hdbw' & _).
  rewrite Hdb in Hdb'. injection Hdb' as <-.
  apply Track_new_fields in Htrack as (_ & _ & _ & _ & Hfn & _).
  unfold list_tracks. rewrite (db_Some _ _ Hdbw'). cbv beta iota zeta.
  rewrite sort_desc_snoc_newest by exact Hnew.
  assert (Hhead : exists rest,
            match limit with
            | Some n => if n =? 0 then mkDoc oid (now_insert o) track :: sort_desc docs
                        else cursor_limit n (mkDoc oid (now_insert o) track :: sort_desc docs)
            | None => mkDoc oid (now_insert o) track :: sort_desc docs
            end = mkDoc oid (now_insert o) track :: rest).
  { destruct limit as [n|]; [|eauto].
    unfold cursor_limit. destruct (Z.eqb_spec n 0); [eauto|].
    destruct (Z.abs_nat n) as [|k] eqn:Hk; [lia|]. cbn [firstn]. eauto. }
  destruct Hhead as (rest & ->). cbn [map].
  eexists _, _. split; [reflexivity|]. cbn. rewrite Hfn. auto.
Qed.

Lemma upload_then_list_witness :
  exists item rest,
    list_tracks cfg0 (Some 1) world_song = (Return (item :: rest), world_song) /\
    filename (doc_track (item_doc item)) = "00000000000040008000000000000007.mp3".
Proof.
  destruct (upload_then_list cfg0 (oracle_ok 7 1 100) song "T" None None None None
              world0 world_song _ [] (Some 1) eq_refl eq_refl
              (fun d (H : In d []) => match H with end) ltac:(cbn; lia))
    as (item & rest & Hlist & _ & _ & Hfn).
  exists item, rest. split; [exact Hlist | exact Hfn].
Defined.

(** ** More on listing and fetching *)

Lemma insert_desc_perm (d : Doc) (l : list Doc) : insert_desc d l ≡ₚ d :: l.
Proof.
  induction l as [|y l IH]; cbn; [reflexivity|].
  destruct (created_at y <=? created_at d); [reflexivity|].
  rewrite IH. apply perm_swap.
Qed.

Lemma sort_desc_perm (docs : list Doc) : sort_desc docs ≡ₚ docs.
Proof.
  induction docs as [|d docs IH]; cbn; [reflexivity|].
  fold (sort_desc docs). rewrite insert_desc_perm. now rewrite IH.
Qed.

(** X12.  Listing without a limit, with limit 0, or with a limit that is at
    least the number of stored tracks returns every stored track exactly
    once: the items are a rearrangement of the collection. *)
Theorem list_tracks_all (cfg : Config) (docs : list Doc) (w : World) (limit : option Z) :
  db w = Some docs ->
  match limit with
  | Some n => n = 0 \/ Z.of_nat (length docs) <= n
  | None => True
  end ->
  exists items,
    list_tracks cfg limit w = (Return items, w) /\
    map item_doc items ≡ₚ docs /\
    length items = length docs.
Proof.
  intros Hdb Hlimit. unfold list_tracks. rewrite (db_Some _ _ Hdb). cbv beta iota zeta.
  assert (Hcur : match limit with
                 | Some n => if n =? 0 then sort_desc docs else cursor_limit n (sort_desc docs)
                 | None => sort_desc docs
                 end = sort_desc docs).
  { destruct limit as [n|]; [|reflexivity].
    destruct (Z.eqb_spec n 0) as [|Hn]; [reflexivity|].
    unfold cursor_limit. destruct (Z.eqb_spec n 0); [reflexivity|].
    apply firstn_all2. rewrite sort_desc_length. lia. }
  rewrite Hcur. eexists. split; [reflexivity|].
  rewrite map_item_doc, length_map, sort_desc_length.
  split; [apply sort_desc_perm | reflexivity].
Qed.

Lemma list_tracks_all_witness :
  exists items,
    list_tracks cfg0 (Some 5) world_abc = (Return items, world_abc) /\
    length items = 3%nat.
Proof.
  destruct (list_tracks_all cfg0 _ world_abc (Some 5) eq_refl ltac:(right; cbn; lia))
    as (items & Hrun & _ & Hlen).
  exists items. split; [exact Hrun | exact Hlen].
Defined.

(** X13.  With a positive limit the listing has exactly
    [min(limit, number of stored tracks)] items. *)
Theorem list_tracks_count (cfg : Config) (docs : list Doc) (w : World) (n : Z) :
  db w = Some docs ->
  0 < n ->
  exists items,
    list_tracks cfg (Some n) w = (Return items, w) /\
    Z.of_nat (length items) = Z.min n (Z.of_nat (length docs)).
Proof.
  intros Hdb Hn. unfold list_tracks. rewrite (db_Some _ _ Hdb). unfold cursor_limit.
  destruct (Z.eqb_spec n 0); [lia|].
  eexists. split; [reflexivity|].
  rewrite length_map, length_firstn, sort_desc_length. lia.
Qed.

Lemma list_tracks_count_witness :
  exists items,
    list_tracks cfg0 (Some 2) world_abc = (Return items, world_abc) /\
    Z.of_nat (length items) = 2.
Proof.
  destruct (list_tracks_count cfg0 _ world_abc 2 eq_refl eq_refl) as (items & Hrun & Hlen).
  exists items. split; [exact Hrun | exact Hlen].
Defined.

Lemma find_by_id_NoDup (docs : list Doc) (d : Doc) :
  NoDup (map _id docs) -> In d docs ->
  List.find (fun x => _id x =? _id d) docs = Some d.
Proof.
  induction docs as [|y docs IH]; intros Hnd Hin; [destruct Hin|].
  cbn in Hnd. apply NoDup_cons in Hnd as [Hy Hnd].
  cbn. destruct Hin as [->|Hin].
  - now rewrite Z.eqb_refl.
  - destruct (Z.eqb_spec (_id y) (_id d)) as [Heq|_]; [|now apply IH].
    exfalso. apply Hy. rewrite Heq. apply list_elem_of_In. now apply in_map.
Qed.

Lemma In_firstn {A} (n : nat) (l : list A) (x : A) : In x (firstn n l) -> In x l.
Proof.
  revert l; induction n as [|n IH]; intros [|a l]; cbn; try tauto.
  intros [->|H]; [now left | right; auto].
Qed.

(** X14.  Every item the listing returns can be fetched by the id it
    shows: get-by-id with that id answers with the very same item, as long
    as the stored ids are 96-bit values and no two records share one. *)
Theorem list_then_get (cfg : Config) (docs : list Doc) (w : World) (limit : option Z)
    (items : list TrackItem) (it : TrackItem) :
  db w = Some docs ->
  ids_well_formed docs ->
  list_tracks cfg limit w = (Return items, w) ->
  In it items ->
  get_track cfg (item_id it) w = (Return it, w).
Proof.
  intros Hdb [Hnd Hrange] Hlist Hin.
  unfold list_tracks in Hlist. rewrite (db_Some _ _ Hdb) in Hlist. injection Hlist as <-.
  apply in_map_iff in Hin as (d & <- & Hd).
  assert (Hdocs : In d docs).
  { apply sort_desc_In. destruct limit as [n|]; [|exact Hd].
    destruct (n =? 0); [exact Hd|]. unfold cursor_limit in Hd.
    destruct (n =? 0); [exact Hd | now apply In_firstn in Hd]. }
  cbn [to_item item_id].
  rewrite (get_track_Connected cfg _ docs w (_id d) (db_Some _ _ Hdb))
    by (apply ObjectId_parse_print; now apply Hrange).
  now rewrite find_by_id_NoDup.
Qed.

Lemma list_then_get_witness :
  get_track cfg0 "000000000000000000000002" world_abc
  = (Return (to_item cfg0 (mkDoc 2 20 (track_of "B"))), world_abc).
Proof.
  eapply (list_then_get cfg0 _ world_abc (Some 2) _ (to_item cfg0 (mkDoc 2 20 (track_of "B")))
            eq_refl).
  - split.
    + repeat constructor; cbn; rewrite ?list_elem_of_In; cbn; intuition discriminate.
    + intros d [<-|[<-|[<-|[]]]]; cbn; split; (lia || reflexivity).
  - exact eq_refl.
  - right. now left.
Defined.

(** X15.  With the store available, get-by-id succeeds exactly when the id
    is well-formed and some stored record carries it; the item it returns
    is a stored record with that id, with its media URL attached. *)
Theorem get_track_found (cfg : Config) (track_id : string) (docs : list Doc) (w : World) :
  db w = Some docs ->
  ((exists item, get_track cfg track_id w = (Return item, w)) <->
   (exists d, In d docs /\ ObjectId_of_str track_id = Some (_id d))) /\
  (forall item, get_track cfg track_id w = (Return item, w) ->
                In (item_doc item) docs /\
                ObjectId_of_str track_id = Some (_id (item_doc item)) /\
                item = to_item cfg (item_doc item)).
Proof.
  intros Hdb. apply db_Some in Hdb.
  destruct (ObjectId_of_str track_id) as [oid|] eqn:Hoid.
  - rewrite (get_track_Connected cfg track_id docs w oid Hdb Hoid).
    destruct (List.find _ docs) as [doc|] eqn:Hfind.
    + apply find_some in Hfind as [Hin Hid]. apply Z.eqb_eq in Hid.
      split; [split|].
      * intros _. exists doc. now rewrite Hid.
      * intros _. eauto.
      * intros item [= <-]. cbn. now rewrite Hid.
    + split; [split|].
      * intros [item H]. discriminate.
      * intros (d & Hin & [= ->]). exfalso.
        apply (find_none _ _ Hfind) in Hin. cbn in Hin. now rewrite Z.eqb_refl in Hin.
      * intros item H. discriminate.
  - split; [split|].
    + intros [item H]. exfalso. exact (get_track_no_id cfg track_id docs w item Hdb Hoid H).
    + intros (d & _ & H). discriminate.
    + intros item H. exfalso. exact (get_track_no_id cfg track_id docs w item Hdb Hoid H).
Qed.

Lemma get_track_found_witness :
  exists item, get_track cfg0 "000000000000000000000003" world_abc = (Return item, world_abc).
Proof.
  apply (proj1 (get_track_found cfg0 "000000000000000000000003" _ world_abc eq_refl)).
  exists (mkDoc 3 30 (track_of "C")). split; [right; right; now left | reflexivity].
Defined.

(** ** The database check *)

Lemma char_count_take_chars (n : nat) (s : string) :
  (PyStr.char_count (PyStr.take_chars n s) <= n)%nat.
Proof.
  revert n; induction s as [|a s IH]; intros n; cbn; [lia|].
  destruct (PyStr.is_continuation a) eqn:Ha; cbn; rewrite ?Ha; [apply IH|].
  destruct n as [|k]; cbn; rewrite ?Ha; [lia|]. specialize (IH k). lia.
Qed.

Lemma char_count_append (s t : string) :
  PyStr.char_count (s +:+ t) = (PyStr.char_count s + PyStr.char_count t)%nat.
Proof.
  induction s as [|a s IH]; [reflexivity|].
  rewrite append_String. cbn. rewrite IH. now destruct (PyStr.is_continuation a).
Qed.

Lemma take_chars_all (n : nat) (s : string) :
  (PyStr.char_count s <= n)%nat -> PyStr.take_chars n s = s.
Proof.
  revert n; induction s as [|a s IH]; intros n; cbn; [reflexivity|].
  destruct (PyStr.is_continuation a); intros H.
  - now rewrite IH.
  - destruct n as [|k]; [lia|]. rewrite IH by lia. reflexivity.
Qed.

Lemma take_chars_prefix (n : nat) (s : string) :
  exists rest, s = PyStr.take_chars n s +:+ rest.
Proof.
  revert n; induction s as [|a s IH]; intros n; cbn.
  - now exists EmptyString.
  - destruct (PyStr.is_continuation a).
    + destruct (IH n) as [rest Hrest]. exists rest. rewrite append_String. now f_equal.
    + destruct n as [|k].
      * now exists (String a s).
      * destruct (IH k) as [rest Hrest]. exists rest. rewrite append_String. now f_equal.
Qed.

(** X16.  The database check reports at most ten collection names, each of
    them one the database listed; it reports none when there is no handle or
    the listing failed. *)
Theorem test_database_collections (handle : option DbHandle) (url name : option string) :
  (length (collections (test_database handle url name)) <= 10)%nat /\
  (forall c, In c (collections (test_database handle url name)) ->
             exists h names, handle = Some h /\ list_collection_names h = inr names /\
                             In c names) /\
  (forall h names, handle = Some h -> list_collection_names h = inr names ->
                   collections (test_database handle url name) = firstn 10 names).
Proof.
  unfold test_database.
  destruct handle as [h|]; [destruct (list_collection_names h) as [e|names] eqn:Hn|]; cbn.
  - split; [lia|]. split; [intros c []|]. intros h' names' [= <-]. congruence.
  - split; [rewrite length_firstn; lia|]. split.
    + intros c Hc. exists h, names. split; [reflexivity|]. split; [exact Hn|].
      now apply In_firstn in Hc.
    + intros h' names' [= <-]. congruence.
  - split; [lia|]. split; [intros c []|]. intros h' names' H. discriminate.
Qed.

(** X17.  The [database_url] and [database_name] fields of the database
    check only say whether the two environment variables are set (to
    something non-empty): what the handle offered, its name included, is
    never reported; [backend] always reads as running. *)
Theorem test_database_env_fields (handle : option DbHandle) (url name : option string) :
  database_url (test_database handle url name)
  = Some (if env_set url then "✅ Set" else "❌ Not Set") /\
  database_name (test_database handle url name)
  = Some (if env_set name then "✅ Set" else "❌ Not Set") /\
  backend (test_database handle url name) = "✅ Running".
Proof.
  unfold test_database.
  destruct handle as [h|]; [destruct (list_collection_names h)|]; cbn; auto.
Qed.

(** X18.  The database check says "Connected & Working" exactly when there
    is a handle and it listed its collections, and "Connected" exactly when
    there is a handle, even one whose listing failed. *)
Theorem test_database_status (handle : option DbHandle) (url name : option string) :
  (database (test_database handle url name) = "✅ Connected & Working" <->
   exists h names, handle = Some h /\ list_collection_names h = inr names) /\
  (connection_status (test_database handle url name) = "Connected" <->
   exists h, handle = Some h) /\
  (handle = None ->
   database (test_database handle url name) = "⚠️  Available but not initialized" /\
   connection_status (test_database handle url name) = "Not Connected").
Proof.
  unfold test_database.
  destruct handle as [h|]; [destruct (list_collection_names h) as [e|names] eqn:Hn|];
    cbn [database connection_status set_database set_database_url set_database_name
         set_connection_status set_collections].
  - split; [split|split; [split|]].
    + rewrite !append_String. discriminate.
    + intros (h' & names & [= <-] & H). congruence.
    + eauto.
    + reflexivity.
    + discriminate.
  - split; [split|split; [split|]]; eauto; discriminate.
  - split; [split|split; [split|]].
    + discriminate.
    + intros (h & names & H & _). discriminate.
    + discriminate.
    + intros (h & H). discriminate.
    + auto.
Qed.

(** X19.  When listing the collections raises, the database check still
    answers: it reports the connection as made, no collections, and the
    failure's text cut to its first 50 characters after "Connected but
    Error: " (the whole text when it has no more than 50). *)
Theorem test_database_listing_error (h : DbHandle) (url name : option string) (e : string) :
  list_collection_names h = inl e ->
  database (test_database (Some h) url name)
  = "⚠️  Connected but Error: " +:+ PyStr.take_chars 50 e /\
  (exists rest, e = PyStr.take_chars 50 e +:+ rest) /\
  (PyStr.char_count (PyStr.take_chars 50 e) <= 50)%nat /\
  (PyStr.char_count (database (test_database (Some h) url name)) <= 25 + 50)%nat /\
  ((PyStr.char_count e <= 50)%nat ->
   database (test_database (Some h) url name) = "⚠️  Connected but Error: " +:+ e) /\
  connection_status (test_database (Some h) url name) = "Connected" /\
  collections (test_database (Some h) url name) = [].
Proof.
  intros He. unfold test_database. rewrite He.
  cbn [database connection_status collections set_database set_database_url
       set_database_name set_connection_status set_collections].
  pose proof (char_count_take_chars 50 e) as Hcut.
  split; [reflexivity|]. split; [apply take_chars_prefix|]. split; [exact Hcut|].
  split; [|split; [|split; reflexivity]].
  - rewrite char_count_append.
    change (PyStr.char_count "⚠️  Connected but Error: ") with 25%nat. lia.
  - intros Hlen. now rewrite take_chars_all.
Qed.

Lemma test_database_listing_error_witness :
  database (test_database (Some handle_failing) None None)
  = "⚠️  Connected but Error: server selection timeout".
Proof.
  destruct (test_database_listing_error handle_failing None None _ eq_refl)
    as (_ & _ & _ & _ & Hshort & _).
  apply Hshort. apply Nat.leb_le. vm_compute. reflexivity.
Defined.
